(** * crit/log: a leveled, structured JSON logger

    A shallow embedding of the Go package [log] (levels.go, logger.go,
    writers.go) and the properties its design document states about it.

    Conventions of the embedding:
    - a Go [string] is a [string] of bytes; a Go [int] is a [Z];
    - a Go map with string keys is a [gmap string _]; a [nil] map reads
      like the empty map, and the code never writes to a nil map;
    - a [[]any] is read as the list of the elements it shows wherever
      only its elements matter (the encoder, [output]); [With], which
      appends to slices, is embedded a second time in [Slices], with the
      arrays behind the slices;
    - a [*Logger] is a location in a store of [Logger] structs, so that a
      method that assigns [l.data] changes the struct every holder of the
      pointer sees;
    - what a call reads from the Go runtime (the clock, the caller's frame)
      is an argument of the call;
    - functions of the Go standard library that work on the text of a
      string outside the ASCII range ([unicode.ToLower]), that format a
      message ([fmt.Sprintf]) or that quote a JSON string literal are
      parameters of the development. *)

From Stdlib Require Import ZArith Ascii String List Bool Lia Permutation.
From stdpp Require Import base option list gmap strings fin_maps sorting pretty.

Set Warnings "-register-all".

Local Open Scope Z_scope.
Local Open Scope string_scope.

(** ** levels.go *)

Module Levels.

(** [type Level int] *)
Definition Level := Z.

(** [const ( DebugLevel Level = iota ... EmergencyLevel )] *)
Definition DebugLevel     : Level := 0.
Definition InfoLevel      : Level := 1.
Definition NoticeLevel    : Level := 2.
Definition WarningLevel   : Level := 3.
Definition ErrorLevel     : Level := 4.
Definition CriticalLevel  : Level := 5.
Definition AlertLevel     : Level := 6.
Definition EmergencyLevel : Level := 7.

(** The eight constants the package declares, in declaration order. *)
Definition definedLevels : list Level :=
  [DebugLevel; InfoLevel; NoticeLevel; WarningLevel;
   ErrorLevel; CriticalLevel; AlertLevel; EmergencyLevel].

(** [var defaultLevel = NoticeLevel] *)
Definition defaultLevel : Level := NoticeLevel.

(** [var logLevelLabels = map[Level]string{...}] *)
Definition logLevelLabels : gmap Z string :=
  <[DebugLevel     := "debug"]>
  (<[InfoLevel      := "info"]>
  (<[NoticeLevel    := "notice"]>
  (<[WarningLevel   := "warning"]>
  (<[ErrorLevel     := "error"]>
  (<[CriticalLevel  := "critical"]>
  (<[AlertLevel     := "alert"]>
  (<[EmergencyLevel := "emergency"]> ∅))))))).

(** [var logLevelValues = map[string]Level{...}] *)
Definition logLevelValues : gmap string Level :=
  <["debug"     := DebugLevel]>
  (<["info"      := InfoLevel]>
  (<["notice"    := NoticeLevel]>
  (<["warning"   := WarningLevel]>
  (<["error"     := ErrorLevel]>
  (<["critical"  := CriticalLevel]>
  (<["alert"     := AlertLevel]>
  (<["emergency" := EmergencyLevel]> ∅))))))).

(** [func (l Level) String() string { return logLevelLabels[l] }]:
    indexing a Go map at a missing key gives the zero value, here [""]. *)
Definition String (l : Level) : string := default "" (logLevelLabels !! l).

(** *** [strings.ToLower]

    The standard library lowers a string that has only ASCII bytes byte by
    byte ([c += 'a' - 'A'] for [c] in ['A'..'Z']), and hands any other
    string to [strings.Map(unicode.ToLower, s)]. *)

Definition isASCIIByte (c : ascii) : bool := (N_of_ascii c <? 128)%N.

Definition isUpperByte (c : ascii) : bool :=
  ((65 <=? N_of_ascii c) && (N_of_ascii c <=? 90))%N.

Definition lowerByte (c : ascii) : ascii :=
  if isUpperByte c then ascii_of_N (N_of_ascii c + 32) else c.

Fixpoint isASCII (s : string) : bool :=
  match s with
  | EmptyString => true
  | String.String c s' => isASCIIByte c && isASCII s'
  end.

Fixpoint lowerASCII (s : string) : string :=
  match s with
  | EmptyString => EmptyString
  | String.String c s' => String.String (lowerByte c) (lowerASCII s')
  end.

Section ToLevel.

(** [strings.Map(unicode.ToLower, s)], used for strings with a byte
    outside ASCII. *)
Variable unicodeLower : string -> string.

Definition ToLower (s : string) : string :=
  if isASCII s then lowerASCII s else unicodeLower s.

(** [func ToLevel(value string) Level] *)
Definition ToLevel (value : string) : Level :=
  let value := ToLower value in
  match logLevelValues !! value with
  | None => defaultLevel
  | Some level => level
  end.

End ToLevel.

End Levels.

(** ** Path functions of the Go standard library

    [Src.TruncateFile] is written with [filepath.Split],
    [strings.FieldsFunc] and [filepath.Join].  They are embedded here as
    the library defines them on a platform whose [filepath.Separator] is
    ['/'] and that has no volume names. *)

Module Filepath.

(** [filepath.Separator] *)
Definition Separator : ascii := "/"%char.

(** [os.IsPathSeparator] *)
Definition IsPathSeparator (c : ascii) : bool := Ascii.eqb c Separator.

(** [filepath.Split]: [dir] is the path up to and including its last
    separator, [file] is what follows it; a path with no separator has an
    empty [dir].  The library scans for the last separator from the end of
    the path; the recursion below finds the same position from the front:
    the directory of the tail is empty exactly when the tail has no
    separator. *)
Fixpoint Split (path : string) : string * string :=
  match path with
  | EmptyString => (EmptyString, EmptyString)
  | String.String c rest =>
      let (dir, file) := Split rest in
      match dir with
      | EmptyString =>
          if IsPathSeparator c
          then (String.String c EmptyString, file)
          else (EmptyString, String.String c file)
      | _ => (String.String c dir, file)
      end
  end.

(** [strings.FieldsFunc(s, f)]: the maximal runs of bytes of [s] on which
    [f] is false, in order.  [start] is the field being read ([None]
    between fields, the library's [start < 0]).  The library decodes [s]
    rune by rune; the separator tested here is a single ASCII byte, which
    never occurs inside a multi-byte rune, so the byte-wise reading cuts
    the string at the same places. *)
Fixpoint fieldsFrom (f : ascii -> bool) (s : string) (start : option string)
  : list string :=
  match s with
  | EmptyString =>
      match start with
      | Some field => [field]
      | None => []
      end
  | String.String c s' =>
      if f c then
        match start with
        | Some field => field :: fieldsFrom f s' None
        | None => fieldsFrom f s' None
        end
      else
        match start with
        | Some field => fieldsFrom f s' (Some (field ++ String.String c EmptyString))
        | None => fieldsFrom f s' (Some (String.String c EmptyString))
        end
  end.

Definition FieldsFunc (s : string) (f : ascii -> bool) : list string :=
  fieldsFrom f s None.

(** *** [filepath.Clean]

    The output buffer of the library ([lazybuf]) is kept as the list of
    the bytes written so far, last byte first; its write index [out.w] is
    the length of that list. *)

(** The backtracking of a [..] element:
    [out.w--; for out.w > dotdot && !IsPathSeparator(out.index(out.w)) { out.w-- }]. *)
Fixpoint backtrack (dotdot : nat) (out : list ascii) : list ascii :=
  match out with
  | [] => []
  | c :: out' =>
      if (dotdot <? length out')%nat && negb (IsPathSeparator c)
      then backtrack dotdot out'
      else out'
  end.

Definition atElementEnd (s : string) : bool :=
  match s with
  | EmptyString => true
  | String.String c _ => IsPathSeparator c
  end.

(** The main loop of [Clean] over the unread part of the path.  [copying]
    is true inside the inner loop that copies a real path element. *)
Fixpoint cleanLoop (rooted : bool) (path : string) (copying : bool)
    (out : list ascii) (dotdot : nat) : list ascii :=
  match path with
  | EmptyString => out
  | String.String c path' =>
      if IsPathSeparator c then
        (* empty path element, or the end of the element being copied *)
        cleanLoop rooted path' false out dotdot
      else if copying then
        cleanLoop rooted path' true (c :: out) dotdot
      else if Ascii.eqb c "."%char && atElementEnd path' then
        (* . element *)
        cleanLoop rooted path' false out dotdot
      else
        let element :=
          (* real path element: add slash if needed, then copy it *)
          let out1 :=
            if (rooted && negb (length out =? 1)%nat)
               || (negb rooted && negb (length out =? 0)%nat)
            then Separator :: out else out in
          cleanLoop rooted path' true (c :: out1) dotdot in
        match path' with
        | String.String c1 path'' =>
            if Ascii.eqb c "."%char && Ascii.eqb c1 "."%char
               && atElementEnd path''
            then
              (* .. element: remove to last separator *)
              if (dotdot <? length out)%nat then
                cleanLoop rooted path'' false (backtrack dotdot out) dotdot
              else if negb rooted then
                let out1 := if (0 <? length out)%nat then Separator :: out else out in
                let out2 := "."%char :: "."%char :: out1 in
                cleanLoop rooted path'' false out2 (length out2)
              else
                cleanLoop rooted path'' false out dotdot
            else element
        | EmptyString => element
        end
  end.

Definition Clean (path : string) : string :=
  match path with
  | EmptyString => "."
  | String.String c _ =>
      let rooted := IsPathSeparator c in
      let out :=
        if rooted
        then cleanLoop true path false [Separator] 1
        else cleanLoop false path false [] 0 in
      match out with
      | [] => "."
      | _ => string_of_list_ascii (rev out)
      end
  end.

(** [strings.Join(elems, sep)] *)
Fixpoint stringsJoin (elems : list string) (sep : string) : string :=
  match elems with
  | [] => EmptyString
  | [e] => e
  | e :: rest => e ++ sep ++ stringsJoin rest sep
  end.

(** [filepath.Join]: the elements from the first non-empty one on, joined
    with the separator and cleaned; [""] when every element is empty. *)
Fixpoint Join (elem : list string) : string :=
  match elem with
  | [] => EmptyString
  | e :: rest =>
      if String.eqb e EmptyString then Join rest
      else Clean (stringsJoin elem (String.String Separator EmptyString))
  end.

End Filepath.

(** ** Values, field sets and JSON *)

(** The dynamic values a field of type [any] holds.  [VSlice] is a value of
    dynamic type [[]any], the only type the assertion [current.([]any)] of
    [Logger.With] accepts; it is read as the list of the elements within
    its length, which is what the encoder writes.  The array behind a
    slice, and with it what an [append] to one slice does to another, is
    not visible in this reading: it is in [Slices] below.  A nil [[]any],
    which [encoding/json] writes as [null], is not among the values:
    [VSlice []] is the empty slice that is not nil.  [VFunc] is a function
    value, which [encoding/json] cannot encode. *)
Inductive Value : Type :=
  | VNil
  | VBool (b : bool)
  | VInt (n : Z)
  | VString (s : string)
  | VSlice (elems : list Value)
  | VFunc.

(** [type Data map[string]any] *)
Abbreviation Data := (gmap string Value).

(** [func (d Data) Log() map[string]any { return d }]: a [Loggable]
    argument is given by the map its [Log] method returns. *)
Definition Log (d : Data) : Data := d.

(** The outcome of a fallible library call: Go's [(value, error)] pair
    with the error given by its message. *)
Inductive result (A : Type) : Type :=
  | Ok (a : A)
  | Failed (err : string).
Arguments Ok {A} a.
Arguments Failed {A} err.

(** A JSON document as [encoding/json] lays it out: an object is the list
    of its members in the order they are written. *)
Inductive JSON : Type :=
  | JNull
  | JBool (b : bool)
  | JNumber (n : Z)
  | JString (s : string)
  | JArray (items : list JSON)
  | JObject (members : list (string * JSON)).

(** The encoding of an [any] value. *)
Fixpoint encodeValue (v : Value) : result JSON :=
  match v with
  | VNil => Ok JNull
  | VBool b => Ok (JBool b)
  | VInt n => Ok (JNumber n)
  | VString s => Ok (JString s)
  | VSlice elems =>
      let fix encodeItems (l : list Value) : result (list JSON) :=
        match l with
        | [] => Ok []
        | x :: l' =>
            match encodeValue x with
            | Failed e => Failed e
            | Ok j =>
                match encodeItems l' with
                | Failed e => Failed e
                | Ok js => Ok (j :: js)
                end
            end
        end in
      match encodeItems elems with
      | Failed e => Failed e
      | Ok js => Ok (JArray js)
      end
  | VFunc => Failed "json: unsupported type: func()"
  end.

Fixpoint encodeMembers (l : list (string * Value)) : result (list (string * JSON)) :=
  match l with
  | [] => Ok []
  | (k, v) :: l' =>
      match encodeValue v with
      | Failed e => Failed e
      | Ok j =>
          match encodeMembers l' with
          | Failed e => Failed e
          | Ok js => Ok ((k, j) :: js)
          end
      end
  end.

(** The order of two map entries by key, bytewise: [encoding/json] writes
    the entries of a map sorted by key. *)
Definition keyLe (a b : string * Value) : Prop := String.leb a.1 b.1 = true.

#[global] Instance keyLe_dec a b : Decision (keyLe a b).
Proof. unfold keyLe. apply _. Defined.

Definition sortedEntries (d : Data) : list (string * Value) :=
  merge_sort keyLe (map_to_list d).

(** The encoding of a [Data] map. *)
Definition encodeData (d : Data) : result JSON :=
  match encodeMembers (sortedEntries d) with
  | Failed e => Failed e
  | Ok ms => Ok (JObject ms)
  end.

(** The text of a JSON document.  The quoting of a string literal (escapes,
    invalid UTF-8) and the formatting of a message are the standard
    library's and are taken as parameters. *)
Class GoLib : Type := {
  (** [fmt.Sprintf(format, args...)] *)
  Sprintf : string -> list Value -> string;
  (** the JSON string literal [encoding/json] writes for a Go string *)
  jsonQuote : string -> string
}.

Section Render.
Context `{GoLib}.

Fixpoint render (j : JSON) : string :=
  match j with
  | JNull => "null"
  | JBool true => "true"
  | JBool false => "false"
  | JNumber n => pretty n
  | JString s => jsonQuote s
  | JArray items =>
      let fix renderItems (l : list JSON) : string :=
        match l with
        | [] => ""
        | [x] => render x
        | x :: l' => render x ++ "," ++ renderItems l'
        end in
      "[" ++ renderItems items ++ "]"
  | JObject members =>
      let fix renderMembers (l : list (string * JSON)) : string :=
        match l with
        | [] => ""
        | [(k, x)] => jsonQuote k ++ ":" ++ render x
        | (k, x) :: l' => jsonQuote k ++ ":" ++ render x ++ "," ++ renderMembers l'
        end in
      "{" ++ renderMembers members ++ "}"
  end.
End Render.

(** ** logger.go: the record and its source location *)

(** [type Src struct { File string `json:"file"`; Line int `json:"line"` }] *)
Record Src : Type := { File : string; Line : Z }.

(** [func (s *Src) TruncateFile()], as the function from the struct before
    the call to the struct after it. *)
Definition TruncateFile (s : Src) : Src :=
  let (dir, file) := Filepath.Split (File s) in
  let parts := Filepath.FieldsFunc dir (fun r => Ascii.eqb r Filepath.Separator) in
  if (0 <? length parts)%nat
  then {| File := Filepath.Join [nth (length parts - 1) parts ""; file];
          Line := Line s |}
  else {| File := file; Line := Line s |}.

(** [type WriteLog struct], with its JSON tags:
    [time], [app], [level], [msg], [data,omitempty], [Src]. *)
Module WriteLog.
Record t : Type := {
  Time  : string;   (* the time.Time, by its RFC 3339 text *)
  App   : string;
  Level : string;
  Msg   : string;
  Data  : Data;
  Src   : Src
}.
End WriteLog.

(** The encoding of a [Src]. *)
Definition encodeSrc (s : Src) : JSON :=
  JObject [("file", JString (File s)); ("line", JNumber (Line s))].

(** The encoding of a [WriteLog]: the fields in declaration order under
    their tag names; [data] is left out when the map has no entry
    ([omitempty]), and is then not encoded at all. *)
Definition encodeWriteLog (r : WriteLog.t) : result JSON :=
  let head :=
    [("time", JString (WriteLog.Time r)); ("app", JString (WriteLog.App r));
     ("level", JString (WriteLog.Level r)); ("msg", JString (WriteLog.Msg r))] in
  let tail := [("Src", encodeSrc (WriteLog.Src r))] in
  if (size (WriteLog.Data r) =? 0)%nat then Ok (JObject (head ++ tail))
  else
    match encodeData (WriteLog.Data r) with
    | Failed e => Failed e
    | Ok d => Ok (JObject (head ++ [("data", d)] ++ tail))
    end.

(** [json.Marshal(out)] *)
Definition Marshal `{GoLib} (r : WriteLog.t) : result string :=
  match encodeWriteLog r with
  | Failed e => Failed e
  | Ok j => Ok (render j)
  end.

(** ** writers.go and the state of the process *)

(** The two sinks of the package, as values of the interface [io.Writer]. *)
Inductive Writer : Type :=
  | stdOutWriter
  | postWriter (url : string).

(** [type Logger struct { level Level; app string; data Data;
    mutex sync.Mutex; out io.Writer }].  The mutex has no state in a
    sequential run and is left out. *)
Record Logger : Type := {
  level : Levels.Level;
  app   : string;
  data  : Data;
  out   : Writer
}.

(** What a run of the program can observe and change: the [Logger] structs
    behind the [*Logger] pointers, the lines printed on standard output,
    the error (if any) that a write to standard output returns, and the
    requests handed to detached goroutines by [postWriter]. *)
Record World : Type := {
  loggers   : gmap nat Logger;
  stdout    : list string;
  stdoutErr : option string;
  posted    : list (string * string)
}.

(** What a call reads from the Go runtime: [time.Now().UTC()] and
    [runtime.Caller(skip)], [None] standing for [ok == false]. *)
Record Runtime : Type := {
  Now    : string;
  Caller : Z -> option (string * Z)
}.

(** How a call ends: it returns, the process exits ([os.Exit]), or it
    panics. *)
Inductive Outcome (A : Type) : Type :=
  | Returned (a : A) (w : World)
  | Exited (code : Z) (w : World)
  | Panicked (reason : string) (w : World).
Arguments Returned {A} a w.
Arguments Exited {A} code w.
Arguments Panicked {A} reason w.

Definition Go (A : Type) : Type := World -> Outcome A.

#[global] Instance Go_ret : MRet Go := fun A a w => Returned a w.

#[global] Instance Go_bind : MBind Go := fun A B k m w =>
  match m w with
  | Returned a w' => k a w'
  | Exited code w' => Exited code w'
  | Panicked reason w' => Panicked reason w'
  end.

(** Reading the struct behind a [*Logger]; a pointer to no struct (nil)
    panics. *)
Definition deref (l : nat) : Go Logger := fun w =>
  match loggers w !! l with
  | Some lg => Returned lg w
  | None => Panicked "invalid memory address or nil pointer dereference" w
  end.

(** [&Logger{...}]: a new struct at an unused address. *)
Definition alloc (lg : Logger) : Go nat := fun w =>
  let l := fresh (dom (loggers w)) in
  Returned l {| loggers := <[l := lg]> (loggers w); stdout := stdout w;
                stdoutErr := stdoutErr w; posted := posted w |}.

(** [l.data = d] *)
Definition setData (l : nat) (d : Data) : Go unit := fun w =>
  match loggers w !! l with
  | Some lg =>
      let lg' := {| level := level lg; app := app lg; data := d; out := out lg |} in
      Returned tt {| loggers := <[l := lg']> (loggers w); stdout := stdout w;
                     stdoutErr := stdoutErr w; posted := posted w |}
  | None => Panicked "invalid memory address or nil pointer dereference" w
  end.

(** [fmt.Println(s)]: the string and a newline go to standard output and
    the call returns the number of bytes written, or it returns the error
    of the stream.  A stream that fails is taken to fail before it has
    written a byte; a write that fails part-way, after some of the bytes,
    is not in the model. *)
Definition Println (s : string) : Go (Z * option string) := fun w =>
  match stdoutErr w with
  | Some e => Returned (0, Some e) w
  | None =>
      Returned (Z.of_nat (String.length s) + 1, None)
        {| loggers := loggers w; stdout := stdout w ++ [s ++ String.String "010"%char ""];
           stdoutErr := stdoutErr w; posted := posted w |}
  end.

(** [go func(url string, p []byte) { client.Post(...) ... }(url, p)]: the
    request is handed over; the caller never sees how it ends. *)
Definition goPost (url : string) (p : string) : Go unit := fun w =>
  Returned tt {| loggers := loggers w; stdout := stdout w;
                 stdoutErr := stdoutErr w; posted := posted w ++ [(url, p)] |}.

(** [os.Exit(code)] *)
Definition osExit {A : Type} (code : Z) : Go A := fun w => Exited code w.

(** [func (w postWriter) Write(p []byte) (n int, err error)] and
    [func (s stdOutWriter) Write(p []byte) (n int, err error)] *)
Definition Write (w : Writer) (p : string) : Go (Z * option string) :=
  match w with
  | stdOutWriter => Println p
  | postWriter url =>
      _ ← (if String.eqb url "" then mret tt else goPost url p);
      Println p
  end.

(** ** logger.go: the logger *)

(** [for key, value := range src { dst[key] = value }] *)
Definition copyInto (dst src : Data) : Data :=
  fold_left (fun m kv => <[kv.1 := kv.2]> m) (map_to_list src) dst.

(** The body of the inner loop of [With] for one entry of a node, on the
    elements the values show: [append(s, value)] shows the elements of [s]
    and then [value].  This is the merge the comment of [With] describes.
    Whether the fields [With] returns show it depends on the arrays
    behind the slices: [Slices.mergeEntry] below has them, and
    [mergeEntry_refines] states when the two agree. *)
Definition mergeEntry (set : Data) (kv : string * Value) : Data :=
  let (key, value) := kv in
  match set !! key with
  | Some current =>
      match current with
      | VSlice s => <[key := VSlice (s ++ [value])]> set
      | _ => <[key := VSlice [current; value]]> set
      end
  | None => <[key := value]> set
  end.

(** [for key, value := range node.Log() { ... }], the entries taken in the
    order [entries] lists them.  Go fixes no order for the iteration of a
    map: any list of the entries of the map is a possible order. *)
Definition mergeEntries (set : Data) (entries : list (string * Value)) : Data :=
  fold_left mergeEntry entries set.

Definition mergeNode (set : Data) (node : Data) : Data :=
  mergeEntries set (map_to_list (Log node)).

(** The field set [With] builds from the fields of the receiver and its
    arguments. *)
Definition mergeFields (fields : Data) (nodes : list Data) : Data :=
  fold_left mergeNode nodes (copyInto ∅ fields).

(** [func New(app string, logLevel Level) *Logger] *)
Definition New (app0 : string) (logLevel : Levels.Level) : Go nat :=
  alloc {| level := logLevel; app := app0; data := ∅; out := stdOutWriter |}.

(** [func (l *Logger) With(data ...Loggable) *Logger], on the elements the
    values show; [Slices.With] is the same function on slices with their
    arrays. *)
Definition With (l : nat) (nodes : list Data) : Go nat :=
  lg ← deref l;
  let set := mergeFields (data lg) nodes in
  alloc {| app := app lg; level := level lg; data := set; out := out lg |}.

Section Methods.
Context `{GoLib}.

(** [func (l *Logger) output(callDepth int, level Level, msg string)] *)
Definition output (l : nat) (callDepth : Z) (lvl : Levels.Level) (msg : string)
    (rt : Runtime) : Go unit :=
  lg ← deref l;
  if (lvl <? level lg)%Z then
    setData l ∅
  else
    let src :=
      match Caller rt callDepth with
      | None => {| File := "???"; Line := 0 |}
      | Some (file, line) => TruncateFile {| File := file; Line := line |}
      end in
    lg ← deref l;
    let record :=
      {| WriteLog.Time := Now rt;
         WriteLog.App := app lg;
         WriteLog.Level := Levels.String lvl;
         WriteLog.Msg := msg;
         WriteLog.Data := copyInto ∅ (data lg);
         WriteLog.Src := src |} in
    _ ← setData l ∅;
    let bytes :=
      match Marshal record with
      | Failed err => "Logger unable to marshal log output to JSON: " ++ err
      | Ok bytes => bytes
      end in
    lg ← deref l;
    _ ← Write (out lg) bytes;
    mret tt.

Definition Debug (l : nat) (msg : string) (args : list Value) (rt : Runtime) : Go unit :=
  output l 2 Levels.DebugLevel (Sprintf msg args) rt.

Definition Info (l : nat) (msg : string) (args : list Value) (rt : Runtime) : Go unit :=
  output l 2 Levels.InfoLevel (Sprintf msg args) rt.

Definition Notice (l : nat) (msg : string) (args : list Value) (rt : Runtime) : Go unit :=
  output l 2 Levels.NoticeLevel (Sprintf msg args) rt.

Definition Warn (l : nat) (msg : string) (args : list Value) (rt : Runtime) : Go unit :=
  output l 2 Levels.WarningLevel (Sprintf msg args) rt.

Definition Error (l : nat) (msg : string) (args : list Value) (rt : Runtime) : Go unit :=
  output l 2 Levels.ErrorLevel (Sprintf msg args) rt.

Definition Critical (l : nat) (msg : string) (args : list Value) (rt : Runtime) : Go unit :=
  output l 2 Levels.CriticalLevel (Sprintf msg args) rt.

Definition Alert (l : nat) (msg : string) (args : list Value) (rt : Runtime) : Go unit :=
  output l 2 Levels.AlertLevel (Sprintf msg args) rt.

Definition Emergency (l : nat) (msg : string) (args : list Value) (rt : Runtime) : Go unit :=
  output l 2 Levels.EmergencyLevel (Sprintf msg args) rt.

(** [func (l *Logger) Fatal(msg string, args ...any)] *)
Definition Fatal (l : nat) (msg : string) (args : list Value) (rt : Runtime) : Go unit :=
  _ ← output l 2 Levels.EmergencyLevel (Sprintf msg args) rt;
  osExit 1.

(** The eight severity methods that return to their caller, and the
    level each passes to [output]. *)
Inductive Severity : Type :=
  | SDebug | SInfo | SNotice | SWarn | SError | SCritical | SAlert | SEmergency.

Definition severityLevel (m : Severity) : Levels.Level :=
  match m with
  | SDebug => Levels.DebugLevel
  | SInfo => Levels.InfoLevel
  | SNotice => Levels.NoticeLevel
  | SWarn => Levels.WarningLevel
  | SError => Levels.ErrorLevel
  | SCritical => Levels.CriticalLevel
  | SAlert => Levels.AlertLevel
  | SEmergency => Levels.EmergencyLevel
  end.

Definition call (m : Severity) : nat -> string -> list Value -> Runtime -> Go unit :=
  match m with
  | SDebug => Debug
  | SInfo => Info
  | SNotice => Notice
  | SWarn => Warn
  | SError => Error
  | SCritical => Critical
  | SAlert => Alert
  | SEmergency => Emergency
  end.

End Methods.

(** ** Notions used to state the properties *)

(** Two strings match without regard to case when they lower to the same
    string. *)
Definition lowerEqual (unicodeLower : string -> string) (s t : string) : Prop :=
  Levels.ToLower unicodeLower s = Levels.ToLower unicodeLower t.

(** The value a key holds after one more value is supplied for it: the
    three cases of the merge. *)
Definition collide (current : option Value) (value : Value) : Value :=
  match current with
  | None => value
  | Some (VSlice s) => VSlice (s ++ [value])
  | Some old => VSlice [old; value]
  end.

(** The value a key holds after the values [supplied] have been merged, in
    order, into a field set in which it held [current]. *)
Definition accumulate (current : option Value) (supplied : list Value) : option Value :=
  fold_left (fun cur v => Some (collide cur v)) supplied current.

(** The values the nodes of one or more [With] calls supply for a key, in
    argument order. *)
Definition suppliedFor (key : string) (nodes : list Data) : list Value :=
  omap (fun node : Data => node !! key) nodes.

(** The pending fields of the logger behind a pointer. *)
Definition fieldsOf (w : World) (l : nat) : option Data :=
  data <$> loggers w !! l.

(** The names of the members of a JSON object, in order, and the member
    under a name. *)
Definition memberKeys (j : JSON) : list string :=
  match j with
  | JObject members => members.*1
  | _ => []
  end.

Fixpoint assoc (key : string) (members : list (string * JSON)) : option JSON :=
  match members with
  | [] => None
  | (k, x) :: members' => if String.eqb k key then Some x else assoc key members'
  end.

Definition member (key : string) (j : JSON) : option JSON :=
  match j with
  | JObject members => assoc key members
  | _ => None
  end.

(** The values [encoding/json] can encode. *)
Fixpoint encodable (v : Value) : bool :=
  match v with
  | VFunc => false
  | VSlice elems => forallb encodable elems
  | _ => true
  end.

(** The record [output] builds for a call that passes the gate, and the
    bytes it hands to the sink. *)
Definition recordOf (lg : Logger) (callDepth : Z) (lvl : Levels.Level)
    (msg : string) (rt : Runtime) : WriteLog.t :=
  {| WriteLog.Time := Now rt;
     WriteLog.App := app lg;
     WriteLog.Level := Levels.String lvl;
     WriteLog.Msg := msg;
     WriteLog.Data := data lg;
     WriteLog.Src :=
       match Caller rt callDepth with
       | None => {| File := "???"; Line := 0 |}
       | Some (file, line) => TruncateFile {| File := file; Line := line |}
       end |}.

Definition fallback (err : string) : string :=
  "Logger unable to marshal log output to JSON: " ++ err.

Definition payloadOf `{GoLib} (r : WriteLog.t) : string :=
  match Marshal r with
  | Failed err => fallback err
  | Ok bytes => bytes
  end.

(** The world after the fields of one logger have been replaced. *)
Definition withFields (w : World) (l : nat) (lg : Logger) (d : Data) : World :=
  {| loggers := <[l := {| level := level lg; app := app lg; data := d; out := out lg |}]> (loggers w);
     stdout := stdout w; stdoutErr := stdoutErr w; posted := posted w |}.

(** Everything a sink has received: the lines on standard output and the
    requests handed to the remote endpoint. *)
Definition sinkOutput (w : World) : list string * list (string * string) :=
  (stdout w, posted w).

(** *** Paths *)

(** The pieces of a string between its separators, empty pieces included. *)
Fixpoint splitAll (s : string) : list string :=
  match s with
  | EmptyString => [EmptyString]
  | String.String c s' =>
      if Filepath.IsPathSeparator c then EmptyString :: splitAll s'
      else
        match splitAll s' with
        | [] => [String.String c EmptyString]
        | h :: t => String.String c h :: t
        end
  end.

(** The segment names of a directory: its non-empty pieces. *)
Definition segments (dir : string) : list string :=
  filter (fun p => p ≠ EmptyString) (splitAll dir).

Fixpoint noSeparator (s : string) : bool :=
  match s with
  | EmptyString => true
  | String.String c s' => negb (Filepath.IsPathSeparator c) && noSeparator s'
  end.

(** [dir] and [file] are the directory and the file name of [path]: the
    file name is what follows the last separator. *)
Definition splitsAs (path dir file : string) : Prop :=
  path = dir ++ file ∧ noSeparator file = true ∧
  (dir = EmptyString ∨ ∃ d, dir = d ++ String.String Filepath.Separator EmptyString).

(** A name that [filepath.Clean] keeps as a path element: not empty, with
    no separator, and neither [.] nor [..]. *)
Definition plainName (s : string) : Prop :=
  s ≠ "" ∧ noSeparator s = true ∧ s ≠ "." ∧ s ≠ "..".

(** The bytes of a string. *)
Definition chars (s : string) : list ascii := list_ascii_of_string s.

(** *** Sample inputs *)

Definition doubleQuote : string := String.String "034"%char EmptyString.

(** A formatter that returns its format and a quoting that adds the two
    quote marks: one instance of the parameters, for running examples. *)
Definition plainLib : GoLib :=
  {| Sprintf := fun format _ => format;
     jsonQuote := fun s => doubleQuote ++ s ++ doubleQuote |}.

Definition emptyWorld : World :=
  {| loggers := ∅; stdout := []; stdoutErr := None; posted := [] |}.

Definition sampleRuntime : Runtime :=
  {| Now := "2024-05-06T07:08:09Z";
     Caller := fun _ => Some ("/home/dev/project/src/model/user.go", 42) |}.

(** A world with one logger, thresholded at [warning], that holds a field. *)
Definition sampleLogger : Logger :=
  {| level := Levels.WarningLevel; app := "svc";
     data := {[ "k" := VString "v1" ]}; out := stdOutWriter |}.

Definition sampleWorld : World :=
  {| loggers := {[ 0%nat := sampleLogger ]}; stdout := []; stdoutErr := None; posted := [] |}.

(** A logger that lets every level through and holds a function value,
    in a world whose standard output returns an error on every write. *)
Definition funcLogger : Logger :=
  {| level := Levels.DebugLevel; app := "svc";
     data := {[ "handler" := VFunc ]}; out := postWriter "" |}.

Definition failingWorld : World :=
  {| loggers := {[ 0%nat := funcLogger ]}; stdout := [];
     stdoutErr := Some "write /dev/stdout: file already closed"; posted := [] |}.

(** ** The setup helper and the adapter's path function *)

(** [func SetupLogger(name, build string) *Logger].  [Getenv] is
    [os.Getenv], which gives [""] for a variable that is not set. *)
Definition SetupLogger (unicodeLower : string -> string) (Getenv : string -> string)
    (name build : string) : Go nat :=
  let logLevel := Levels.ToLevel unicodeLower (Getenv "LOG_LEVEL") in
  l ← New name logLevel;
  With l [ {[ "build" := VString build ]} ].

(** [func srcFileParse(filename string) string] of the echo adapter. *)
Definition srcFileParse (filename : string) : string :=
  let (dir, file) := Filepath.Split filename in
  let parts := Filepath.FieldsFunc dir (fun c => Ascii.eqb c Filepath.Separator) in
  if (0 <? length parts)%nat
  then Filepath.Join [nth (length parts - 1) parts ""; file]
  else file.

(** ** Further notions used to state properties *)

(** The number of separators in a path. *)
Fixpoint countSeparators (s : string) : nat :=
  match s with
  | EmptyString => 0
  | String.String c s' =>
      (if Filepath.IsPathSeparator c then 1 else 0) + countSeparators s'
  end.



(** The message of the one error the encoder of the model reports. *)
Definition unsupportedFunc : string := "json: unsupported type: func()".

(** The line [fmt.Println] prints for a payload. *)
Definition printedLine (p : string) : string := p ++ String.String "010"%char "".

(** The requests a sink hands to the remote endpoint for a payload. *)
Definition postedBy (o : Writer) (p : string) : list (string * string) :=
  match o with
  | stdOutWriter => []
  | postWriter url => if String.eqb url "" then [] else [(url, p)]
  end.

(** An environment with no variable set, and one that sets [LOG_LEVEL]. *)
Definition noEnv : string -> string := fun _ => "".

Definition debugEnv : string -> string :=
  fun name => if String.eqb name "LOG_LEVEL" then "DEBUG" else "".

(** A logger with the remote sink, in a world whose standard output
    works. *)
Definition remoteLogger : Logger :=
  {| level := Levels.InfoLevel; app := "svc";
     data := {[ "request" := VString "r-1" ]};
     out := postWriter "http://logs.example/ingest" |}.

Definition remoteWorld : World :=
  {| loggers := {[ 0%nat := remoteLogger; 1%nat := sampleLogger ]};
     stdout := []; stdoutErr := None; posted := [] |}.

(** The logger a call leaves behind: the one it found, with no field. *)
Definition drained (lg : Logger) : Logger :=
  {| level := level lg; app := app lg; data := ∅; out := out lg |}.

(** The logger [SetupLogger] builds for a threshold, a name and a build. *)
Definition builtLogger (threshold : Levels.Level) (name build : string) : Logger :=
  {| level := threshold; app := name;
     data := {[ "build" := VString build ]}; out := stdOutWriter |}.

(** The text [filepath.Clean] returns for the buffer its loop ends with. *)
Definition cleaned (out : list ascii) : string :=
  match out with
  | [] => "."
  | _ :: _ => string_of_list_ascii (rev out)
  end.

(** A logger whose threshold lies above every declared level, and a
    runtime that cannot name the caller. *)
Definition mutedLogger : Logger :=
  {| level := 8; app := "svc"; data := {[ "k" := VString "v1" ]}; out := stdOutWriter |}.

Definition mutedWorld : World :=
  {| loggers := {[ 0%nat := mutedLogger ]}; stdout := []; stdoutErr := None; posted := [] |}.

Definition blindRuntime : Runtime :=
  {| Now := "2024-05-06T07:08:09Z"; Caller := fun _ => None |}.

(** ** [With] on slices with their backing arrays

    The embedding above reads a [[]any] as the list of the elements it
    shows.  That is all [output] and the encoder need, but it cannot say
    what [append] does to an array that several slices share.  This module
    embeds [With] again, with slices as Go has them: a slice is a window on
    a backing array, [append] writes into that array when it has room and
    moves to a new array when it has not.  A slice is given by its array
    and its length and starts where the array starts; its capacity is the
    length of the array.  A slice that starts inside an array, or whose
    capacity ends before the array does, is not among the values. *)

Module Slices.

(** A value of type [any]; [ASlice arr len] is a [[]any] of length [len]
    on the array [arr]. *)
Inductive Any : Type :=
  | ANil
  | ABool (b : bool)
  | AInt (n : Z)
  | AString (s : string)
  | ASlice (arr len : nat)
  | AFunc.

(** [type Logger struct], with fields of such values. *)
Record Logger : Type := {
  level : Levels.Level;
  app   : string;
  data  : gmap string Any;
  out   : Writer
}.

(** The [Logger] structs behind the pointers and the backing arrays. *)
Record World : Type := {
  loggers : gmap nat Logger;
  arrays  : gmap nat (list Any)
}.

(** The cells of an array, and the elements a slice shows. *)
Definition cellsOf (h : gmap nat (list Any)) (arr : nat) : list Any :=
  default [] (h !! arr).

Definition shown (h : gmap nat (list Any)) (arr len : nat) : list Any :=
  take len (cellsOf h arr).


Section Growth.

(** The capacity the runtime gives the new array when [append] finds a
    slice of the given length full.  The language fixes no policy; it is at
    least the length plus one. *)
Variable grow : nat -> nat.

(** [append(s, value)] for the slice [s] of length [len] on [arr]: with
    room, the value is written into the array of [s] just past its
    length; without, the elements of [s] and the value go to a new array,
    the rest of which holds the zero value. *)
Definition append (h : gmap nat (list Any)) (arr len : nat) (value : Any)
  : Any * gmap nat (list Any) :=
  let cells := cellsOf h arr in
  if (len <? length cells)%nat then
    (ASlice arr (S len), <[arr := <[len := value]> cells]> h)
  else
    let arr' := fresh (dom h) in
    (ASlice arr' (S len),
     <[arr' := (take len cells ++ value :: replicate (grow len - S len) ANil)%list]> h).

(** [for key, value := range src { dst[key] = value }]: the values, slice
    headers included, are copied; the arrays are not. *)
Definition copyInto (dst src : gmap string Any) : gmap string Any :=
  fold_left (fun m kv => <[kv.1 := kv.2]> m) (map_to_list src) dst.

(** The body of the inner loop of [With] for one entry of a node. *)
Definition mergeEntry (st : gmap string Any * gmap nat (list Any))
    (kv : string * Any) : gmap string Any * gmap nat (list Any) :=
  let (set, h) := st in
  let (key, value) := kv in
  match set !! key with
  | Some current =>
      match current with
      | ASlice arr len =>
          (* s = append(s, value); set[key] = s *)
          let (s, h') := append h arr len value in
          (<[key := s]> set, h')
      | _ =>
          (* set[key] = []any{current, value} *)
          let arr' := fresh (dom h) in
          (<[key := ASlice arr' 2]> set, <[arr' := [current; value]]> h)
      end
  | None => (<[key := value]> set, h)
  end.

Definition mergeEntries (st : gmap string Any * gmap nat (list Any))
    (entries : list (string * Any)) : gmap string Any * gmap nat (list Any) :=
  fold_left mergeEntry entries st.

Definition mergeNode (st : gmap string Any * gmap nat (list Any))
    (node : gmap string Any) : gmap string Any * gmap nat (list Any) :=
  mergeEntries st (map_to_list node).

Definition mergeFields (fields : gmap string Any) (nodes : list (gmap string Any))
    (h : gmap nat (list Any)) : gmap string Any * gmap nat (list Any) :=
  fold_left mergeNode nodes (copyInto ∅ fields, h).

(** [func New(app string, logLevel Level) *Logger] *)
Definition New (app0 : string) (logLevel : Levels.Level) (w : World) : nat * World :=
  let l := fresh (dom (loggers w)) in
  (l, {| loggers := <[l := {| level := logLevel; app := app0; data := ∅;
                              out := stdOutWriter |}]> (loggers w);
         arrays := arrays w |}).

(** [func (l *Logger) With(data ...Loggable) *Logger]; [None] is the panic
    of a pointer to no struct. *)
Definition With (l : nat) (nodes : list (gmap string Any)) (w : World)
  : option (nat * World) :=
  match loggers w !! l with
  | None => None
  | Some lg =>
      let (set, h) := mergeFields (data lg) nodes (arrays w) in
      let l' := fresh (dom (loggers w)) in
      Some (l', {| loggers := <[l' := {| app := app lg; level := level lg;
                                         data := set; out := out lg |}]> (loggers w);
                   arrays := h |})
  end.

End Growth.

(** The value a field shows, read through the arrays down to the given
    depth: a slice becomes the list of the elements it shows. *)
Fixpoint reify (depth : nat) (h : gmap nat (list Any)) (v : Any) : Value :=
  match v with
  | ANil => VNil
  | ABool b => VBool b
  | AInt n => VInt n
  | AString s => VString s
  | AFunc => VFunc
  | ASlice arr len =>
      match depth with
      | O => VSlice []
      | S depth' => VSlice (map (reify depth' h) (shown h arr len))
      end
  end.







(** The fields a logger shows. *)
Definition fieldsShown (depth : nat) (w : World) (l : nat) : option Data :=
  (fun lg => reify depth (arrays w) <$> data lg) <$> loggers w !! l.

(** The growth of the gc runtime for a [[]any] of fewer than 256
    elements: twice the length, and one cell for the empty slice. *)
Definition doubling (len : nat) : nat := if (len =? 0)%nat then 1%nat else (2 * len)%nat.

(** A caller's array ["a", "b"] and nothing else. *)
Definition callerWorld : World :=
  {| loggers := ∅; arrays := {[ 0%nat := [AString "a"; AString "b"] ]} |}.

(** A caller's array of capacity 2 that holds ["a"]
    ([s := make([]any, 1, 2); s[0] = "a"]). *)
Definition roomyWorld : World :=
  {| loggers := ∅; arrays := {[ 0%nat := [AString "a"; ANil] ]} |}.

Definition noWorld : World := {| loggers := ∅; arrays := ∅ |}.



End Slices.

(** * Properties *)

(** ** Levels *)

Section LevelProperties.
Variable unicodeLower : string -> string.

Import Levels.

Lemma definedLevels_cases (P : Level -> Prop) :
  P DebugLevel -> P InfoLevel -> P NoticeLevel -> P WarningLevel ->
  P ErrorLevel -> P CriticalLevel -> P AlertLevel -> P EmergencyLevel ->
  forall L, In L definedLevels -> P L.
Proof.
  intros H0 H1 H2 H3 H4 H5 H6 H7 L HL. simpl in HL.
  repeat (destruct HL as [<- | HL]; [assumption |]). destruct HL.
Qed.

(** The labels are in lower case already. *)
Lemma ToLower_label L :
  In L definedLevels -> ToLower unicodeLower (String L) = String L.
Proof. revert L. apply definedLevels_cases; reflexivity. Qed.

(** The table of values is the table of labels read backwards. *)
Lemma logLevelValues_label L :
  In L definedLevels -> logLevelValues !! String L = Some L.
Proof. revert L. apply definedLevels_cases; reflexivity. Qed.

Lemma logLevelValues_inv t L :
  logLevelValues !! t = Some L -> In L definedLevels /\ String L = t.
Proof.
  unfold logLevelValues. intros Hl.
  repeat match type of Hl with
  | <[ ?k := _ ]> _ !! _ = _ =>
      let Hne := fresh "Hne" in
      destruct (decide (k = t)) as [<- | Hne];
      [ rewrite lookup_insert_eq in Hl; injection Hl as <-;
        split; [simpl; tauto | reflexivity]
      | rewrite lookup_insert_ne in Hl by exact Hne ]
  end.
  rewrite lookup_empty in Hl. discriminate.
Qed.

Lemma ToLevel_match s L :
  In L definedLevels -> lowerEqual unicodeLower s (String L) ->
  ToLevel unicodeLower s = L.
Proof.
  intros HL Heq. unfold lowerEqual in Heq. rewrite (ToLower_label L HL) in Heq.
  unfold ToLevel. rewrite Heq, (logLevelValues_label L HL). reflexivity.
Qed.

Lemma ToLevel_no_match s :
  (forall L, In L definedLevels -> ~ lowerEqual unicodeLower s (String L)) ->
  ToLevel unicodeLower s = NoticeLevel.
Proof.
  intros Hno. unfold ToLevel.
  destruct (logLevelValues !! ToLower unicodeLower s) as [L |] eqn:Hl; [| reflexivity].
  apply logLevelValues_inv in Hl as [HL Hs].
  exfalso. apply (Hno L HL). unfold lowerEqual.
  rewrite (ToLower_label L HL). symmetry. exact Hs.
Qed.

(** C7: [ToLevel] looks its argument up in the table of labels without
    regard to case: a string that matches the label of a declared level
    gives that level, a string that matches no label gives [NoticeLevel];
    so ["WARNING"] and ["warning"] give [WarningLevel] and
    ["unknown-garbage"] gives [NoticeLevel]. *)
Theorem ToLevel_case_insensitive_lookup :
  (forall s L, In L definedLevels -> lowerEqual unicodeLower s (String L) ->
     ToLevel unicodeLower s = L) /\
  (forall s, (forall L, In L definedLevels -> ~ lowerEqual unicodeLower s (String L)) ->
     ToLevel unicodeLower s = NoticeLevel) /\
  ToLevel unicodeLower "WARNING" = WarningLevel /\
  ToLevel unicodeLower "warning" = WarningLevel /\
  ToLevel unicodeLower "unknown-garbage" = NoticeLevel.
Proof.
  split; [exact ToLevel_match |]. split; [exact ToLevel_no_match |].
  repeat split; reflexivity.
Qed.

(** C10: on the eight declared levels, [ToLevel] undoes [String]. *)
Theorem ToLevel_String_inverse L :
  In L definedLevels -> ToLevel unicodeLower (String L) = L.
Proof.
  intros HL. apply ToLevel_match; [exact HL | reflexivity].
Qed.

End LevelProperties.

Lemma ToLevel_case_insensitive_lookup_witness :
  (In Levels.ErrorLevel Levels.definedLevels /\
   lowerEqual (fun s => s) "eRRor" (Levels.String Levels.ErrorLevel) /\
   Levels.ToLevel (fun s => s) "eRRor" = Levels.ErrorLevel) /\
  ((forall L, In L Levels.definedLevels ->
      ~ lowerEqual (fun s => s) "verbose" (Levels.String L)) /\
   Levels.ToLevel (fun s => s) "verbose" = Levels.NoticeLevel).
Proof.
  assert (Hin : In Levels.ErrorLevel Levels.definedLevels) by (simpl; tauto).
  assert (Heq : lowerEqual (fun s => s) "eRRor" (Levels.String Levels.ErrorLevel))
    by reflexivity.
  assert (Hno : forall L, In L Levels.definedLevels ->
      ~ lowerEqual (fun s => s) "verbose" (Levels.String L)).
  { apply definedLevels_cases; intros Heq'; vm_compute in Heq'; discriminate Heq'. }
  destruct (ToLevel_case_insensitive_lookup (fun s => s)) as (Hmatch & Hdefault & _).
  split.
  - split; [exact Hin |]. split; [exact Heq |].
    exact (Hmatch "eRRor" Levels.ErrorLevel Hin Heq).
  - split; [exact Hno |]. exact (Hdefault "verbose" Hno).
Defined.

Lemma ToLevel_String_inverse_witness :
  In Levels.CriticalLevel Levels.definedLevels /\
  Levels.ToLevel (fun s => s) (Levels.String Levels.CriticalLevel) = Levels.CriticalLevel.
Proof.
  assert (Hin : In Levels.CriticalLevel Levels.definedLevels) by (simpl; tauto).
  split; [exact Hin |].
  exact (ToLevel_String_inverse (fun s => s) Levels.CriticalLevel Hin).
Defined.

(** ** Source-location truncation *)

Section PathProperties.
Import Filepath.

Lemma append_nil_l (s : string) : "" ++ s = s.
Proof. reflexivity. Qed.

Lemma append_cons c (s t : string) :
  String.String c s ++ t = String.String c (s ++ t).
Proof. reflexivity. Qed.

Lemma append_nil_r (s : string) : s ++ "" = s.
Proof.
  induction s as [| c s IH]; [reflexivity |]. now rewrite append_cons, IH.
Qed.

Lemma append_assoc (s t u : string) : (s ++ t) ++ u = s ++ (t ++ u).
Proof.
  induction s as [| c s IH]; [reflexivity |]. now rewrite !append_cons, IH.
Qed.

Lemma append_eq_nil (s t : string) : s ++ t = "" -> s = "" /\ t = "".
Proof.
  destruct s; [rewrite append_nil_l; now intros -> | rewrite append_cons; discriminate].
Qed.

Lemma noSeparator_app s t :
  noSeparator (s ++ t) = noSeparator s && noSeparator t.
Proof.
  induction s as [| c s IH]; [reflexivity |].
  rewrite append_cons. simpl. rewrite IH. now rewrite andb_assoc.
Qed.

Lemma IsPathSeparator_eq c : IsPathSeparator c = true -> c = Separator.
Proof. apply Ascii.eqb_eq. Qed.

(** [Split] cuts the path after its last separator. *)
Lemma Split_splitsAs path :
  splitsAs path (Split path).1 (Split path).2.
Proof.
  unfold splitsAs. induction path as [| c rest (Happ & Hfile & Hdir)]; simpl.
  - split; [reflexivity |]. split; [reflexivity |]. now left.
  - destruct (Split rest) as [dir file]; simpl in *.
    destruct dir as [| d0 dir].
    + rewrite append_nil_l in Happ.
      destruct (IsPathSeparator c) eqn:Hc; simpl.
      * apply IsPathSeparator_eq in Hc. subst c.
        split; [now rewrite Happ |]. split; [exact Hfile |].
        right. exists "". reflexivity.
      * split; [now rewrite Happ |]. rewrite Hc. split; [exact Hfile |]. now left.
    + simpl. split; [now rewrite Happ |]. split; [exact Hfile |].
      right. destruct Hdir as [Hdir | (d & Hd)]; [discriminate |].
      exists (String.String c d). now rewrite append_cons, Hd.
Qed.

(** ... and it is the only such cut. *)
Lemma splitsAs_Split path dir file :
  splitsAs path dir file -> Split path = (dir, file).
Proof.
  revert dir file. induction path as [| c rest IH]; intros dir file (Happ & Hfile & Hdir).
  - symmetry in Happ. apply append_eq_nil in Happ as [-> ->]. reflexivity.
  - destruct dir as [| a dir0].
    + rewrite append_nil_l in Happ. subst file. simpl in Hfile.
      apply andb_prop in Hfile as [Hc Hrest].
      simpl. rewrite (IH "" rest ltac:(repeat split; auto)).
      apply negb_true_iff in Hc. now rewrite Hc.
    + rewrite append_cons in Happ. injection Happ as <- Hrest.
      destruct Hdir as [Hdir | (d & Hd)]; [discriminate |].
      destruct d as [| c0 d0].
      * rewrite append_nil_l in Hd. injection Hd as -> ->.
        rewrite append_nil_l in Hrest. subst rest.
        simpl. rewrite (IH "" file ltac:(repeat split; auto)). reflexivity.
      * rewrite append_cons in Hd. injection Hd as -> ->.
        simpl. rewrite (IH (d0 ++ String.String Separator "") file
                          ltac:(repeat split; eauto)).
        destruct d0; reflexivity.
Qed.

Lemma splitAll_cons s : exists h t, splitAll s = h :: t.
Proof.
  induction s as [| c s (h & t & IH)]; simpl; [eauto |].
  destruct (IsPathSeparator c); [eauto |]. rewrite IH. eauto.
Qed.

Lemma fieldsFrom_splitAll s :
  (forall field, field <> "" ->
     fieldsFrom IsPathSeparator s (Some field) =
     filter (fun p : string => p <> "")
       (match splitAll s with
        | [] => [field]
        | h :: t => (field ++ h) :: t
        end)) /\
  fieldsFrom IsPathSeparator s None = segments s.
Proof.
  unfold segments. induction s as [| c s [IHsome IHnone]]; simpl.
  - split; [| reflexivity]. intros field Hne.
    rewrite append_nil_r. now rewrite filter_cons_True by exact Hne.
  - destruct (IsPathSeparator c).
    + split.
      * intros field Hne. rewrite append_nil_r.
        rewrite filter_cons_True by exact Hne. now rewrite IHnone.
      * rewrite filter_cons_False by (intros Hn; now apply Hn). exact IHnone.
    + destruct (splitAll_cons s) as (h & t & Hs). rewrite Hs in *. split.
      * intros field Hne.
        rewrite IHsome by (destruct field; discriminate).
        now rewrite append_assoc, append_cons, append_nil_l.
      * now rewrite IHsome by discriminate.
Qed.

(** [strings.FieldsFunc] on the separator gives the segment names. *)
Lemma FieldsFunc_segments dir :
  FieldsFunc dir (fun r => Ascii.eqb r Separator) = segments dir.
Proof. apply fieldsFrom_splitAll. Qed.

Lemma nth_last_default (parts : list string) :
  nth (length parts - 1) parts "" = default "" (last parts).
Proof.
  rewrite nth_lookup, last_lookup. now rewrite Nat.sub_1_r.
Qed.

(** *** [Clean] on a directory name and a file name *)

Lemma cleanLoop_copy rooted s rest out dotdot :
  noSeparator s = true ->
  cleanLoop rooted (s ++ rest) true out dotdot =
  cleanLoop rooted rest true (rev (chars s) ++ out) dotdot.
Proof.
  revert out. induction s as [| c s IH]; intros out Hs; [reflexivity |].
  simpl in Hs. apply andb_prop in Hs as [Hc Hs]. apply negb_true_iff in Hc.
  rewrite append_cons. simpl. rewrite Hc, IH by exact Hs.
  now rewrite <- app_assoc.
Qed.

Lemma atElementEnd_app s rest :
  s <> "" -> noSeparator s = true -> atElementEnd (s ++ rest) = false.
Proof.
  destruct s as [| c s]; [congruence |]. intros _ Hs. simpl in Hs.
  apply andb_prop in Hs as [Hc _]. apply negb_true_iff in Hc. exact Hc.
Qed.

(** A plain name at the start of an element is copied, after a separator
    when the buffer already holds an element. *)
Lemma cleanLoop_plain rooted s rest out dotdot :
  plainName s ->
  cleanLoop rooted (s ++ rest) false out dotdot =
  cleanLoop rooted rest true
    (rev (chars s) ++
     (if (rooted && negb (length out =? 1)%nat)
         || (negb rooted && negb (length out =? 0)%nat)
      then Separator :: out else out)) dotdot.
Proof.
  intros (Hne & Hs & Hdot & Hdotdot).
  destruct s as [| c s]; [congruence |].
  simpl in Hs. apply andb_prop in Hs as [Hc Hs]. apply negb_true_iff in Hc.
  rewrite append_cons. simpl. rewrite Hc.
  set (out1 := if (rooted && negb (length out =? 1)%nat)
                  || (negb rooted && negb (length out =? 0)%nat)
               then Separator :: out else out).
  assert (Hcopy : cleanLoop rooted (s ++ rest) true (c :: out1) dotdot =
                  cleanLoop rooted rest true ((rev (chars s) ++ [c]) ++ out1) dotdot).
  { rewrite cleanLoop_copy by exact Hs. now rewrite <- app_assoc. }
  destruct s as [| c1 s].
  - assert (Hcdot : Ascii.eqb c "." = false).
    { apply Ascii.eqb_neq. intros ->. now apply Hdot. }
    rewrite Hcdot. simpl. rewrite append_nil_l in *.
    destruct rest; exact Hcopy.
  - simpl in Hs. apply andb_prop in Hs as [Hc1 Hs]. apply negb_true_iff in Hc1.
    rewrite append_cons in *. simpl atElementEnd. rewrite Hc1, andb_false_r.
    assert (Hcond : Ascii.eqb c "." && Ascii.eqb c1 "." && atElementEnd (s ++ rest) = false).
    { destruct (Ascii.eqb_spec c "."); [| reflexivity].
      destruct (Ascii.eqb_spec c1 "."); [| reflexivity].
      subst c c1. simpl. apply atElementEnd_app; [| exact Hs].
      intros ->. now apply Hdotdot. }
    rewrite Hcond. exact Hcopy.
Qed.

Lemma cleanLoop_plain_end rooted s out dotdot :
  plainName s ->
  cleanLoop rooted s false out dotdot =
  (rev (chars s) ++
   (if (rooted && negb (length out =? 1)%nat)
       || (negb rooted && negb (length out =? 0)%nat)
    then Separator :: out else out))%list.
Proof.
  intros Hs. pose proof (cleanLoop_plain rooted s "" out dotdot Hs) as E.
  rewrite append_nil_r in E. exact E.
Qed.

Lemma string_of_chars s : string_of_list_ascii (chars s) = s.
Proof. apply string_of_list_ascii_of_string. Qed.

Lemma chars_app s t : chars (s ++ t) = (chars s ++ chars t)%list.
Proof.
  induction s as [| c s IH]; [reflexivity |].
  rewrite append_cons. simpl. now rewrite IH.
Qed.

Lemma chars_nil s : chars s = [] -> s = "".
Proof. destruct s; [reflexivity | discriminate]. Qed.

(** Joining a plain directory name and a plain file name puts one
    separator between them. *)
Lemma Join_plain seg file :
  plainName seg -> plainName file ->
  Join [seg; file] = seg ++ String.String Separator "" ++ file.
Proof.
  intros Hseg Hfile. pose proof Hseg as (Hne & Hs & _).
  unfold Join. destruct (String.eqb_spec seg ""); [congruence |].
  unfold stringsJoin, Clean.
  destruct seg as [| c seg]; [congruence |].
  rewrite append_cons.
  assert (Hc : IsPathSeparator c = false).
  { simpl in Hs. apply andb_prop in Hs as [Hc _]. now apply negb_true_iff in Hc. }
  rewrite Hc. rewrite <- append_cons.
  rewrite cleanLoop_plain by exact Hseg. simpl.
  rewrite append_cons. simpl.
  rewrite cleanLoop_plain_end by exact Hfile. simpl.
  rewrite append_nil_l, !app_nil_r.
  assert (Hlen : negb (length (rev (chars seg) ++ [c]) =? 0)%nat = true).
  { apply negb_true_iff, Nat.eqb_neq. rewrite length_app. simpl. lia. }
  rewrite Hlen.
  destruct (rev (chars file) ++ Separator :: rev (chars seg) ++ [c])%list eqn:Hout.
  { apply app_eq_nil in Hout as [_ Hout]. discriminate. }
  rewrite <- Hout. rewrite rev_app_distr. simpl. rewrite rev_app_distr. simpl.
  rewrite !rev_involutive.
  rewrite <- (string_of_chars (String.String c (seg ++ String.String Separator "" ++ file))).
  f_equal. simpl. rewrite !chars_app. simpl.
  now rewrite <- app_assoc.
Qed.

(** C9: truncation is a function of the path alone: with the path cut
    after its last separator into a directory and a file name, and the
    directory cut at its separators into segment names, the result is the
    last segment joined with the file name ([filepath.Join]: the two
    names with one separator between them, when both are plain names),
    or the file name alone when the directory has no segment.  So
    ["project/src/model/user.go"] gives ["model/user.go"], ["main.go"]
    gives ["main.go"] and [""] gives [""]. *)
Theorem TruncateFile_last_segment_and_file :
  (forall s : Src, exists dir file,
     splitsAs (File s) dir file /\
     TruncateFile s =
       {| File := match last (segments dir) with
                  | Some seg => Join [seg; file]
                  | None => file
                  end;
          Line := Line s |} /\
     (forall seg, last (segments dir) = Some seg ->
        plainName seg -> plainName file ->
        File (TruncateFile s) = seg ++ "/" ++ file)) /\
  (forall line, TruncateFile {| File := "project/src/model/user.go"; Line := line |}
                = {| File := "model/user.go"; Line := line |}) /\
  (forall line, TruncateFile {| File := "main.go"; Line := line |}
                = {| File := "main.go"; Line := line |}) /\
  (forall line, TruncateFile {| File := ""; Line := line |}
                = {| File := ""; Line := line |}).
Proof.
  split; [| repeat split; reflexivity].
  intros s. exists (Split (File s)).1, (Split (File s)).2.
  split; [apply Split_splitsAs |].
  assert (Heq : TruncateFile s =
       {| File := match last (segments (Split (File s)).1) with
                  | Some seg => Join [seg; (Split (File s)).2]
                  | None => (Split (File s)).2
                  end;
          Line := Line s |}).
  { unfold TruncateFile. destruct (Split (File s)) as [dir file]. simpl.
    rewrite FieldsFunc_segments, nth_last_default.
    destruct (segments dir) as [| p parts] eqn:Hsegs using rev_ind.
    - reflexivity.
    - rewrite length_app, last_snoc. simpl.
      replace (0 <? length parts + 1)%nat with true
        by (symmetry; apply Nat.ltb_lt; lia).
      reflexivity. }
  split; [exact Heq |].
  intros seg Hlast Hseg Hfile. rewrite Heq. simpl. rewrite Hlast.
  apply Join_plain; assumption.
Qed.

End PathProperties.

Lemma TruncateFile_last_segment_and_file_witness :
  exists dir file,
    splitsAs "/go/src/app/server/http.go" dir file /\
    last (segments dir) = Some "server" /\
    plainName "server" /\ plainName file /\
    File (TruncateFile {| File := "/go/src/app/server/http.go"; Line := 7 |})
      = "server" ++ "/" ++ file.
Proof.
  destruct TruncateFile_last_segment_and_file as (Hall & _).
  destruct (Hall {| File := "/go/src/app/server/http.go"; Line := 7 |})
    as (dir & file & Hsplit & _ & Hplain).
  exists dir, file. simpl in Hsplit.
  pose proof (splitsAs_Split _ _ _ Hsplit) as Hs.
  vm_compute in Hs. injection Hs as <- <-.
  assert (Hlast : last (segments "/go/src/app/server/") = Some "server")
    by reflexivity.
  assert (Hseg : plainName "server") by (repeat split; discriminate).
  assert (Hfile : plainName "http.go") by (repeat split; discriminate).
  split; [exact Hsplit |]. split; [exact Hlast |].
  split; [exact Hseg |]. split; [exact Hfile |].
  exact (Hplain "server" Hlast Hseg Hfile).
Defined.

(** ** The merge of [With] *)

Section MergeProperties.

Lemma fold_insert_lookup (entries : list (string * Value)) (m : Data) key :
  NoDup entries.*1 ->
  fold_left (fun m kv => <[kv.1 := kv.2]> m) entries m !! key =
  match (list_to_map entries : Data) !! key with
  | Some v => Some v
  | None => m !! key
  end.
Proof.
  revert m. induction entries as [| [k0 v0] entries IH]; intros m Hnd; simpl.
  - now rewrite lookup_empty.
  - apply NoDup_cons in Hnd as [Hk0 Hnd]. rewrite IH by exact Hnd.
    destruct (decide (k0 = key)) as [-> | Hne].
    + rewrite lookup_insert_eq.
      rewrite (not_elem_of_list_to_map_1 _ _ Hk0). now rewrite lookup_insert_eq.
    + rewrite !lookup_insert_ne by exact Hne. reflexivity.
Qed.

(** Copying a map into an empty one gives the map. *)
Lemma copyInto_empty (d : Data) : copyInto ∅ d = d.
Proof.
  apply map_eq. intros key. unfold copyInto.
  rewrite fold_insert_lookup by apply NoDup_fst_map_to_list.
  rewrite list_to_map_to_list, lookup_empty. now destruct (d !! key).
Qed.

Lemma mergeEntry_lookup (set : Data) k0 v0 key :
  mergeEntry set (k0, v0) !! key =
  if decide (k0 = key) then Some (collide (set !! k0) v0) else set !! key.
Proof.
  unfold mergeEntry, collide.
  destruct (decide (k0 = key)) as [-> | Hne].
  - destruct (set !! key) as [[] |]; now rewrite lookup_insert_eq.
  - destruct (set !! k0) as [[] |]; now rewrite lookup_insert_ne.
Qed.

Lemma mergeEntries_lookup (entries : list (string * Value)) (set : Data) key :
  NoDup entries.*1 ->
  mergeEntries set entries !! key =
  match (list_to_map entries : Data) !! key with
  | Some v => Some (collide (set !! key) v)
  | None => set !! key
  end.
Proof.
  unfold mergeEntries. revert set.
  induction entries as [| [k0 v0] entries IH]; intros set Hnd.
  - simpl. now rewrite lookup_empty.
  - rewrite fmap_cons in Hnd. apply NoDup_cons in Hnd as [Hk0 Hnd].
    cbn [fold_left]. rewrite list_to_map_cons, IH by exact Hnd.
    rewrite mergeEntry_lookup.
    destruct (decide (k0 = key)) as [-> | Hne].
    + rewrite (not_elem_of_list_to_map_1 _ _ Hk0). now rewrite lookup_insert_eq.
    + now rewrite lookup_insert_ne by exact Hne.
Qed.

(** One node, its entries visited in any order: a key of the node holds
    the collision of its old value with the node's value, every other key
    is untouched. *)
Lemma mergeEntries_range (set node : Data) entries key :
  entries ≡ₚ map_to_list node ->
  mergeEntries set entries !! key =
  match node !! key with
  | Some v => Some (collide (set !! key) v)
  | None => set !! key
  end.
Proof.
  intros Hperm.
  assert (Hnd : NoDup entries.*1).
  { rewrite Hperm. apply NoDup_fst_map_to_list. }
  rewrite mergeEntries_lookup by exact Hnd.
  assert (Hmap : (list_to_map entries : Data) = node).
  { rewrite <- (list_to_map_to_list node). apply list_to_map_proper; assumption. }
  now rewrite Hmap.
Qed.


Lemma mergeNode_lookup (set node : Data) key :
  mergeNode set node !! key =
  match node !! key with
  | Some v => Some (collide (set !! key) v)
  | None => set !! key
  end.
Proof. unfold mergeNode, Log. now apply mergeEntries_range. Qed.

Lemma fold_mergeNode_lookup (nodes : list Data) (set : Data) key :
  fold_left mergeNode nodes set !! key =
  accumulate (set !! key) (suppliedFor key nodes).
Proof.
  revert set. induction nodes as [| node nodes IH]; intros set; simpl.
  - reflexivity.
  - rewrite IH, mergeNode_lookup. unfold suppliedFor. simpl.
    destruct (node !! key); reflexivity.
Qed.

Lemma mergeFields_lookup (fields : Data) (nodes : list Data) key :
  mergeFields fields nodes !! key =
  accumulate (fields !! key) (suppliedFor key nodes).
Proof.
  unfold mergeFields. now rewrite fold_mergeNode_lookup, copyInto_empty.
Qed.



End MergeProperties.

(** ** The logger *)

Section LoggerProperties.
Context `{GoLib}.

Lemma fresh_logger (w : World) : loggers w !! fresh (dom (loggers w)) = None.
Proof. apply not_elem_of_dom, is_fresh. Qed.

(** [With] returns a pointer to a new struct and changes nothing else. *)
Lemma With_returns (w : World) l lg nodes :
  loggers w !! l = Some lg ->
  With l nodes w =
  Returned (fresh (dom (loggers w)))
    {| loggers :=
         <[fresh (dom (loggers w)) :=
             {| level := level lg; app := app lg;
                data := mergeFields (data lg) nodes; out := out lg |}]> (loggers w);
       stdout := stdout w; stdoutErr := stdoutErr w; posted := posted w |}.
Proof.
  intros Hl. unfold With, mbind, Go_bind, deref, alloc. now rewrite Hl.
Qed.

(** A sink always returns, and touches no logger. *)
Lemma Write_returns (o : Writer) (p : string) (w : World) :
  exists res w', Write o p w = Returned res w' /\
    loggers w' = loggers w /\ stdoutErr w' = stdoutErr w.
Proof.
  destruct o as [| url]; unfold Write, mbind, Go_bind, Println, goPost, mret, Go_ret.
  - destruct (stdoutErr w) eqn:He; do 2 eexists;
      (split; [reflexivity |]); split; simpl; congruence.
  - destruct (String.eqb url ""); simpl; destruct (stdoutErr w) eqn:He;
      do 2 eexists; (split; [reflexivity |]); split; simpl; congruence.
Qed.

(** A sink whose stream is in error writes nothing and returns the
    error. *)
Lemma Write_failing (o : Writer) (p : string) (w : World) e :
  stdoutErr w = Some e ->
  exists w', Write o p w = Returned (0, Some e) w' /\ stdout w' = stdout w.
Proof.
  intros He.
  destruct o as [| url]; unfold Write, mbind, Go_bind, Println, goPost, mret, Go_ret.
  - rewrite He. eexists. split; reflexivity.
  - destruct (String.eqb url ""); simpl; rewrite He; eexists; split; reflexivity.
Qed.

(** A sink whose stream works prints the bytes and a newline. *)
Lemma Write_printing (o : Writer) (p : string) (w : World) :
  stdoutErr w = None ->
  exists res w', Write o p w = Returned res w' /\
    stdout w' = (stdout w ++ [(p ++ String.String "010"%char "")%string])%list.
Proof.
  intros He.
  destruct o as [| url]; unfold Write, mbind, Go_bind, Println, goPost, mret, Go_ret.
  - rewrite He. do 2 eexists. split; reflexivity.
  - destruct (String.eqb url ""); simpl; rewrite He; do 2 eexists; split; reflexivity.
Qed.

(** A call below the threshold only empties the fields. *)
Lemma output_gated (w : World) l lg callDepth lvl msg rt :
  loggers w !! l = Some lg -> lvl < level lg ->
  output l callDepth lvl msg rt w = Returned tt (withFields w l lg ∅).
Proof.
  intros Hl Hlt. unfold output, mbind, Go_bind, deref, setData. rewrite Hl.
  apply Z.ltb_lt in Hlt. rewrite Hlt, Hl. reflexivity.
Qed.

(** A call at or above the threshold empties the fields and hands the
    payload of its record to the sink; whatever the sink returns is
    dropped. *)
Lemma output_emitted (w : World) l lg callDepth lvl msg rt :
  loggers w !! l = Some lg -> level lg <= lvl ->
  output l callDepth lvl msg rt w =
  match Write (out lg) (payloadOf (recordOf lg callDepth lvl msg rt))
          (withFields w l lg ∅) with
  | Returned _ w' => Returned tt w'
  | Exited code w' => Exited code w'
  | Panicked reason w' => Panicked reason w'
  end.
Proof.
  intros Hl Hle. unfold output, mbind, Go_bind, deref, setData. rewrite Hl.
  apply Z.ltb_ge in Hle. rewrite Hle. simpl. rewrite !Hl. simpl.
  rewrite lookup_insert_eq. simpl. rewrite copyInto_empty.
  unfold withFields, payloadOf, recordOf, fallback. simpl.
  destruct (Write _ _ _); reflexivity.
Qed.

Lemma output_returns (w : World) l lg callDepth lvl msg rt :
  loggers w !! l = Some lg ->
  exists w', output l callDepth lvl msg rt w = Returned tt w' /\
    fieldsOf w' l = Some ∅.
Proof.
  intros Hl. destruct (Z.lt_ge_cases lvl (level lg)) as [Hlt | Hge].
  - rewrite (output_gated w l lg) by assumption. eexists. split; [reflexivity |].
    unfold fieldsOf, withFields. simpl. now rewrite lookup_insert_eq.
  - rewrite (output_emitted w l lg) by assumption.
    destruct (Write_returns (out lg) (payloadOf (recordOf lg callDepth lvl msg rt))
                (withFields w l lg ∅)) as (res & w' & -> & Hlog & _).
    eexists. split; [reflexivity |].
    unfold fieldsOf. rewrite Hlog. unfold withFields. simpl.
    now rewrite lookup_insert_eq.
Qed.

(** Every severity method is [output] at its level on the formatted
    message. *)
Lemma call_output m l msg args rt :
  call m l msg args rt = output l 2 (severityLevel m) (Sprintf msg args) rt.
Proof. destruct m; reflexivity. Qed.

(** C1: a call at a level below the threshold of the logger writes
    nothing to the sink, and leaves the logger with no pending field. *)
Theorem gated_call_writes_nothing (w : World) l lg m msg args rt :
  loggers w !! l = Some lg ->
  severityLevel m < level lg ->
  exists w', call m l msg args rt w = Returned tt w' /\
    sinkOutput w' = sinkOutput w /\
    fieldsOf w' l = Some ∅.
Proof.
  intros Hl Hlt. rewrite call_output.
  rewrite (output_gated w l lg) by assumption.
  eexists. split; [reflexivity |]. split; [reflexivity |].
  unfold fieldsOf, withFields. simpl. now rewrite lookup_insert_eq.
Qed.

(** C3: after a call of any of the eight severity methods, gated or
    emitted, the logger has no pending field. *)
Theorem fields_empty_after_call (w : World) l lg m msg args rt :
  loggers w !! l = Some lg ->
  exists w', call m l msg args rt w = Returned tt w' /\
    fieldsOf w' l = Some ∅.
Proof.
  intros Hl. rewrite call_output. now apply (output_returns w l lg).
Qed.

(** C5: a severity method returns to its caller, with nothing but the
    unit of a method that has no result; when the record cannot be
    marshalled, what the sink receives is the fallback text with the
    message of the error; and when the sink returns an error, the call
    returns all the same. *)
Theorem call_never_fails (w : World) l lg m msg args rt :
  loggers w !! l = Some lg ->
  exists w', call m l msg args rt w = Returned tt w' /\
    (forall err, level lg <= severityLevel m ->
       Marshal (recordOf lg 2 (severityLevel m) (Sprintf msg args) rt) = Failed err ->
       exists res,
         Write (out lg) (fallback err) (withFields w l lg ∅) = Returned res w') /\
    (forall e, level lg <= severityLevel m ->
       stdoutErr w = Some e ->
       Write (out lg)
         (payloadOf (recordOf lg 2 (severityLevel m) (Sprintf msg args) rt))
         (withFields w l lg ∅) = Returned (0, Some e) w').
Proof.
  intros Hl. rewrite call_output.
  destruct (Z.lt_ge_cases (severityLevel m) (level lg)) as [Hlt | Hge].
  - rewrite (output_gated w l lg) by assumption.
    eexists. split; [reflexivity |]. split; intros; lia.
  - rewrite (output_emitted w l lg) by assumption.
    set (r := recordOf lg 2 (severityLevel m) (Sprintf msg args) rt).
    destruct (Write_returns (out lg) (payloadOf r) (withFields w l lg ∅))
      as (res & w' & Hw & _).
    rewrite Hw. exists w'. split; [reflexivity |]. split.
    + intros err _ Herr. exists res. unfold payloadOf in Hw.
      now rewrite Herr in Hw.
    + intros e _ He.
      destruct (Write_failing (out lg) (payloadOf r) (withFields w l lg ∅) e He)
        as (w'' & Hw' & _).
      rewrite Hw' in Hw. injection Hw as <- <-. reflexivity.
Qed.

(** C6: [Fatal] runs the emission routine at the emergency level and then
    ends the process with status 1, whatever the logger holds and
    whatever the sink does; when the threshold of the logger is at most
    [EmergencyLevel] the routine hands the payload of a record labelled
    [emergency] to the sink. *)
Theorem Fatal_always_exits (w : World) l lg msg args rt :
  loggers w !! l = Some lg ->
  exists code w',
    Fatal l msg args rt w = Exited code w' /\ code <> 0 /\
    output l 2 Levels.EmergencyLevel (Sprintf msg args) rt w = Returned tt w' /\
    (level lg <= Levels.EmergencyLevel ->
       WriteLog.Level (recordOf lg 2 Levels.EmergencyLevel (Sprintf msg args) rt)
         = "emergency" /\
       exists res,
         Write (out lg)
           (payloadOf (recordOf lg 2 Levels.EmergencyLevel (Sprintf msg args) rt))
           (withFields w l lg ∅) = Returned res w').
Proof.
  intros Hl.
  destruct (output_returns w l lg 2 Levels.EmergencyLevel (Sprintf msg args) rt Hl)
    as (w' & Hout & _).
  exists 1, w'. split.
  { unfold Fatal, mbind, Go_bind. now rewrite Hout. }
  split; [lia |]. split; [exact Hout |].
  intros Hle. split; [reflexivity |].
  rewrite (output_emitted w l lg) in Hout by assumption.
  destruct (Write _ _ _) as [res w'' | |] eqn:Hw; try discriminate.
  injection Hout as ->. now exists res.
Qed.

End LoggerProperties.

(** ** [With] and the arrays behind the slices

    [With] copies the fields of its receiver into a new map and merges its
    arguments into the copy.  The copy is of the map, not of the arrays
    behind the slices it holds, and [append] writes into the array of the
    slice it is given when that has room.  The two properties below
    evaluate [Slices.With] at inputs at which this shows. *)

(** C2: the fields of a logger that [With] returned are not always
    those the merge gives.  The example of the claim holds:
    [With(Data{"k": "v1"}).With(Data{"k": "v2"})] on a new logger shows
    ["v1", "v2"] under ["k"].  But
    - a caller's slice of length 1 and capacity 2 is stored under two keys
      by a first [With]; on the logger that returns,
      [With(Data{"k": 1}, Data{"j": 2})] appends to the slice of each key,
      and both appends write the second cell of the one array: both keys
      then show ["a", 2], where the merge gives ["a", 1] and ["a", 2];
    - with the growth of gc,
      [l := New(...).With(Data{"k": 1}).With(Data{"k": 2}).With(Data{"k": 3})]
      holds under ["k"] a slice of length 3 on an array of 4 cells;
      [a := l.With(Data{"k": 4})] shows [1, 2, 3, 4], as the merge gives,
      until [b := l.With(Data{"k": 5})] writes the same cell: from then on
      [a] shows [1, 2, 3, 5]. *)
Theorem With_diverges_from_merge :
  (forall grow : nat -> nat,
   exists l1 w1 l2 w2,
     Slices.With grow 0 [ {[ "k" := Slices.AString "v1" ]} ]
       (Slices.New "svc" Levels.InfoLevel Slices.noWorld).2 = Some (l1, w1) /\
     Slices.With grow l1 [ {[ "k" := Slices.AString "v2" ]} ] w1 = Some (l2, w2) /\
     Slices.fieldsShown 1 w2 l2
       = Some {[ "k" := VSlice [VString "v1"; VString "v2"] ]}) /\
  (forall grow : nat -> nat,
   exists l1 w1 l2 w2,
     Slices.With grow 0 [ {[ "k" := Slices.ASlice 0 1; "j" := Slices.ASlice 0 1 ]} ]
       (Slices.New "svc" Levels.InfoLevel Slices.roomyWorld).2 = Some (l1, w1) /\
     Slices.With grow l1 [ {[ "k" := Slices.AInt 1 ]}; {[ "j" := Slices.AInt 2 ]} ] w1
       = Some (l2, w2) /\
     Slices.fieldsShown 1 w1 l1
       = Some {[ "k" := VSlice [VString "a"]; "j" := VSlice [VString "a"] ]} /\
     Slices.fieldsShown 1 w2 l2
       = Some {[ "k" := VSlice [VString "a"; VInt 2];
                 "j" := VSlice [VString "a"; VInt 2] ]} /\
     mergeFields {[ "k" := VSlice [VString "a"]; "j" := VSlice [VString "a"] ]}
       [ {[ "k" := VInt 1 ]}; {[ "j" := VInt 2 ]} ]
       = {[ "k" := VSlice [VString "a"; VInt 1];
            "j" := VSlice [VString "a"; VInt 2] ]}) /\
  (exists l1 w1 l2 w2 l w a wa b wb,
     Slices.With Slices.doubling 0 [ {[ "k" := Slices.AInt 1 ]} ]
       (Slices.New "svc" Levels.InfoLevel Slices.noWorld).2 = Some (l1, w1) /\
     Slices.With Slices.doubling l1 [ {[ "k" := Slices.AInt 2 ]} ] w1 = Some (l2, w2) /\
     Slices.With Slices.doubling l2 [ {[ "k" := Slices.AInt 3 ]} ] w2 = Some (l, w) /\
     Slices.With Slices.doubling l [ {[ "k" := Slices.AInt 4 ]} ] w = Some (a, wa) /\
     Slices.With Slices.doubling l [ {[ "k" := Slices.AInt 5 ]} ] wa = Some (b, wb) /\
     Slices.fieldsShown 1 w l = Some {[ "k" := VSlice [VInt 1; VInt 2; VInt 3] ]} /\
     mergeFields {[ "k" := VSlice [VInt 1; VInt 2; VInt 3] ]} [ {[ "k" := VInt 4 ]} ]
       = {[ "k" := VSlice [VInt 1; VInt 2; VInt 3; VInt 4] ]} /\
     Slices.fieldsShown 1 wa a
       = Some {[ "k" := VSlice [VInt 1; VInt 2; VInt 3; VInt 4] ]} /\
     Slices.fieldsShown 1 wb a
       = Some {[ "k" := VSlice [VInt 1; VInt 2; VInt 3; VInt 5] ]}).
Proof.
  split; [| split].
  - intros grow. do 4 eexists. split; [vm_compute; reflexivity |].
    split; vm_compute; reflexivity.
  - intros grow. do 4 eexists. split; [vm_compute; reflexivity |].
    split; [vm_compute; reflexivity |].
    repeat split; vm_compute; reflexivity.
  - do 10 eexists.
    split; [vm_compute; reflexivity |].
    split; [vm_compute; reflexivity |].
    split; [vm_compute; reflexivity |].
    split; [vm_compute; reflexivity |].
    split; [vm_compute; reflexivity |].
    repeat split; vm_compute; reflexivity.
Qed.

(** C4: [With] does not always leave the fields of its receiver as they
    were.  The receiver holds a caller's slice ["a", "b"] under ["y"] and
    its first element alone under ["x"]; [With(Data{"x": "v"})] appends to
    the slice of ["x"], which has room in the array of both, and the
    receiver's ["y"] shows ["a", "v"] from then on.  A later [With] on the
    receiver starts from that. *)
Theorem With_overwrites_receiver_element (grow : nat -> nat) :
  exists l1 w1 l2 w2 l3 w3,
    Slices.With grow 0 [ {[ "x" := Slices.ASlice 0 1; "y" := Slices.ASlice 0 2 ]} ]
      (Slices.New "svc" Levels.InfoLevel Slices.callerWorld).2 = Some (l1, w1) /\
    Slices.With grow l1 [ {[ "x" := Slices.AString "v" ]} ] w1 = Some (l2, w2) /\
    Slices.With grow l1 [ {[ "y" := Slices.AString "w" ]} ] w2 = Some (l3, w3) /\
    Slices.loggers w2 !! l1 = Slices.loggers w1 !! l1 /\
    Slices.fieldsShown 1 w1 l1
      = Some {[ "x" := VSlice [VString "a"]; "y" := VSlice [VString "a"; VString "b"] ]} /\
    Slices.fieldsShown 1 w2 l1
      = Some {[ "x" := VSlice [VString "a"]; "y" := VSlice [VString "a"; VString "v"] ]} /\
    Slices.fieldsShown 1 w3 l3
      = Some {[ "x" := VSlice [VString "a"];
                "y" := VSlice [VString "a"; VString "v"; VString "w"] ]}.
Proof.
  do 6 eexists. split; [vm_compute; reflexivity |].
  split; [vm_compute; reflexivity |].
  split; [vm_compute; reflexivity |].
  repeat split; vm_compute; reflexivity.
Qed.

(** ** The JSON record *)

Section RecordProperties.
Context `{GoLib}.

(** A value with no function in it has an encoding. *)
Lemma encodeValue_encodable (v : Value) :
  encodable v = true -> exists j, encodeValue v = Ok j.
Proof.
  revert v. fix IH 1. intros [| b | n | s | elems |]; simpl; intros Henc;
    try (eexists; reflexivity); [| discriminate].
  assert (Hitems : exists js,
    (fix encodeItems (l : list Value) : result (list JSON) :=
       match l with
       | [] => Ok []
       | x :: l' =>
           match encodeValue x with
           | Failed e => Failed e
           | Ok j =>
               match encodeItems l' with
               | Failed e => Failed e
               | Ok js => Ok (j :: js)
               end
           end
       end) elems = Ok js).
  { induction elems as [| x elems IHelems]; [eexists; reflexivity |].
    simpl in Henc. apply andb_prop in Henc as [Hx Helems].
    destruct (IH x Hx) as (j & ->).
    destruct (IHelems Helems) as (js & ->). eexists; reflexivity. }
  destruct Hitems as (js & ->). eexists; reflexivity.
Qed.

Lemma encodeMembers_encodable (entries : list (string * Value)) :
  Forall (fun kv => encodable kv.2 = true) entries ->
  exists ms, encodeMembers entries = Ok ms.
Proof.
  induction 1 as [| [k v] entries Hv _ (ms & IH)]; simpl; [eexists; reflexivity |].
  destruct (encodeValue_encodable v Hv) as (j & ->). rewrite IH.
  eexists; reflexivity.
Qed.

Lemma encodeData_encodable (d : Data) :
  (forall k v, d !! k = Some v -> encodable v = true) ->
  exists j, encodeData d = Ok j.
Proof.
  intros Hd. unfold encodeData.
  destruct (encodeMembers_encodable (sortedEntries d)) as (ms & ->);
    [| eexists; reflexivity].
  apply Forall_forall. intros [k v] Hin. simpl.
  apply (Hd k). apply elem_of_map_to_list.
  unfold sortedEntries in Hin. now rewrite merge_sort_Permutation in Hin.
Qed.

Lemma size_zero_empty (d : Data) : (size d =? 0)%nat = true <-> d = ∅.
Proof. rewrite Nat.eqb_eq. apply map_size_empty_iff. Qed.

(** C8: the JSON object of a record has the members [time], [app],
    [level], [msg] and [Src], in this order, with [data] before [Src]
    exactly when the record holds a field; [level] is the label the
    record carries, which for a record built by a severity method is the
    label of its level; [Src] has the members [file] and [line].  A
    record whose fields can all be encoded has such an object, and the
    call writes its text. *)
Theorem record_json_members :
  (forall (r : WriteLog.t) j,
     encodeWriteLog r = Ok j ->
     memberKeys j =
       (["time"; "app"; "level"; "msg"] ++
        (if decide (WriteLog.Data r = ∅) then [] else ["data"]) ++
        ["Src"])%list /\
     member "time" j = Some (JString (WriteLog.Time r)) /\
     member "app" j = Some (JString (WriteLog.App r)) /\
     member "level" j = Some (JString (WriteLog.Level r)) /\
     member "msg" j = Some (JString (WriteLog.Msg r)) /\
     member "Src" j =
       Some (JObject [("file", JString (File (WriteLog.Src r)));
                      ("line", JNumber (Line (WriteLog.Src r)))]) /\
     (In "data" (memberKeys j) <-> WriteLog.Data r <> ∅) /\
     (member "data" j = None <-> WriteLog.Data r = ∅)) /\
  (forall r : WriteLog.t,
     (forall k v, WriteLog.Data r !! k = Some v -> encodable v = true) ->
     exists j, encodeWriteLog r = Ok j) /\
  (forall lg callDepth m msg rt,
     WriteLog.Level (recordOf lg callDepth (severityLevel m) msg rt)
       = Levels.String (severityLevel m) /\
     In (Levels.String (severityLevel m))
        ["debug"; "info"; "notice"; "warning"; "error"; "critical"; "alert";
         "emergency"]) /\
  (forall (w : World) l lg m msg args rt j,
     loggers w !! l = Some lg ->
     level lg <= severityLevel m ->
     encodeWriteLog (recordOf lg 2 (severityLevel m) (Sprintf msg args) rt) = Ok j ->
     exists res w',
       Write (out lg) (render j) (withFields w l lg ∅) = Returned res w' /\
       call m l msg args rt w = Returned tt w').
Proof.
  split; [| split; [| split]].
  - intros r j Hj. unfold encodeWriteLog in Hj.
    destruct (size (WriteLog.Data r) =? 0)%nat eqn:Hsize.
    + apply size_zero_empty in Hsize. injection Hj as <-.
      destruct (decide (WriteLog.Data r = ∅)); [| contradiction].
      repeat split; try reflexivity; simpl; intros; try assumption; try tauto.
      intuition discriminate.
    + assert (Hne : WriteLog.Data r <> ∅).
      { intros He. apply size_zero_empty in He. congruence. }
      destruct (encodeData (WriteLog.Data r)) as [d |]; [| discriminate].
      injection Hj as <-.
      destruct (decide (WriteLog.Data r = ∅)); [contradiction |].
      repeat split; try reflexivity; simpl; intros; try assumption; try tauto;
        try discriminate; try contradiction.
  - intros r Hr. unfold encodeWriteLog.
    destruct (size (WriteLog.Data r) =? 0)%nat; [eexists; reflexivity |].
    destruct (encodeData_encodable _ Hr) as (d & ->). eexists; reflexivity.
  - intros lg callDepth m msg rt. split; [reflexivity |].
    destruct m; simpl; tauto.
  - intros w l lg m msg args rt j Hl Hle Hj.
    rewrite call_output, (output_emitted w l lg) by assumption.
    unfold payloadOf, Marshal. rewrite Hj.
    destruct (Write_returns (out lg) (render j) (withFields w l lg ∅))
      as (res & w' & Hw & _).
    rewrite Hw. now exists res, w'.
Qed.

End RecordProperties.

(** ** The properties at sample inputs *)

Lemma gated_call_writes_nothing_witness :
  loggers sampleWorld !! 0%nat = Some sampleLogger /\
  severityLevel SInfo < level sampleLogger /\
  exists w',
    call (H := plainLib) SInfo 0%nat "hello" [] sampleRuntime sampleWorld
      = Returned tt w' /\
    sinkOutput w' = sinkOutput sampleWorld /\
    fieldsOf w' 0%nat = Some ∅.
Proof.
  assert (Hl : loggers sampleWorld !! 0%nat = Some sampleLogger) by reflexivity.
  assert (Hlt : severityLevel SInfo < level sampleLogger) by reflexivity.
  split; [exact Hl |]. split; [exact Hlt |].
  exact (gated_call_writes_nothing (H := plainLib) sampleWorld 0%nat sampleLogger
           SInfo "hello" [] sampleRuntime Hl Hlt).
Defined.

Lemma fields_empty_after_call_witness :
  loggers sampleWorld !! 0%nat = Some sampleLogger /\
  exists w',
    call (H := plainLib) SError 0%nat "boom" [] sampleRuntime sampleWorld
      = Returned tt w' /\
    fieldsOf w' 0%nat = Some ∅.
Proof.
  assert (Hl : loggers sampleWorld !! 0%nat = Some sampleLogger) by reflexivity.
  split; [exact Hl |].
  exact (fields_empty_after_call (H := plainLib) sampleWorld 0%nat sampleLogger
           SError "boom" [] sampleRuntime Hl).
Defined.

Lemma call_never_fails_witness :
  loggers failingWorld !! 0%nat = Some funcLogger /\
  level funcLogger <= severityLevel SError /\
  Marshal (H := plainLib)
    (recordOf funcLogger 2 (severityLevel SError)
       (Sprintf (GoLib := plainLib) "boom" []) sampleRuntime)
    = Failed "json: unsupported type: func()" /\
  stdoutErr failingWorld = Some "write /dev/stdout: file already closed" /\
  exists w',
    call (H := plainLib) SError 0%nat "boom" [] sampleRuntime failingWorld
      = Returned tt w' /\
    (exists res,
       Write (out funcLogger) (fallback "json: unsupported type: func()")
         (withFields failingWorld 0%nat funcLogger ∅) = Returned res w') /\
    Write (out funcLogger)
      (payloadOf (H := plainLib)
         (recordOf funcLogger 2 (severityLevel SError)
            (Sprintf (GoLib := plainLib) "boom" []) sampleRuntime))
      (withFields failingWorld 0%nat funcLogger ∅)
      = Returned (0, Some "write /dev/stdout: file already closed") w'.
Proof.
  assert (Hl : loggers failingWorld !! 0%nat = Some funcLogger) by reflexivity.
  assert (Hle : level funcLogger <= severityLevel SError) by (apply Z.leb_le; reflexivity).
  assert (Hm : Marshal (H := plainLib)
    (recordOf funcLogger 2 (severityLevel SError)
       (Sprintf (GoLib := plainLib) "boom" []) sampleRuntime)
    = Failed "json: unsupported type: func()") by reflexivity.
  assert (He : stdoutErr failingWorld = Some "write /dev/stdout: file already closed")
    by reflexivity.
  split; [exact Hl |]. split; [exact Hle |]. split; [exact Hm |]. split; [exact He |].
  destruct (call_never_fails (H := plainLib) failingWorld 0%nat funcLogger
              SError "boom" [] sampleRuntime Hl) as (w' & Hcall & Hfallback & Herr).
  exists w'. split; [exact Hcall |]. split.
  - exact (Hfallback _ Hle Hm).
  - exact (Herr _ Hle He).
Defined.

Lemma Fatal_always_exits_witness :
  loggers sampleWorld !! 0%nat = Some sampleLogger /\
  level sampleLogger <= Levels.EmergencyLevel /\
  exists code w',
    Fatal (H := plainLib) 0%nat "bye" [] sampleRuntime sampleWorld = Exited code w' /\
    code <> 0 /\
    exists res,
      Write (out sampleLogger)
        (payloadOf (H := plainLib)
           (recordOf sampleLogger 2 Levels.EmergencyLevel
              (Sprintf (GoLib := plainLib) "bye" []) sampleRuntime))
        (withFields sampleWorld 0%nat sampleLogger ∅) = Returned res w'.
Proof.
  assert (Hl : loggers sampleWorld !! 0%nat = Some sampleLogger) by reflexivity.
  assert (Hle : level sampleLogger <= Levels.EmergencyLevel) by (apply Z.leb_le; reflexivity).
  split; [exact Hl |]. split; [exact Hle |].
  destruct (Fatal_always_exits (H := plainLib) sampleWorld 0%nat sampleLogger
              "bye" [] sampleRuntime Hl) as (code & w' & Hexit & Hcode & _ & Hrecord).
  exists code, w'. split; [exact Hexit |]. split; [exact Hcode |].
  exact (proj2 (Hrecord Hle)).
Defined.

Lemma record_json_members_witness :
  let r := recordOf sampleLogger 2 (severityLevel SError) "boom" sampleRuntime in
  let j := JObject [("time", JString "2024-05-06T07:08:09Z"); ("app", JString "svc");
                    ("level", JString "error"); ("msg", JString "boom");
                    ("data", JObject [("k", JString "v1")]);
                    ("Src", JObject [("file", JString "model/user.go");
                                     ("line", JNumber 42)])] in
  encodeWriteLog r = Ok j /\
  memberKeys j = ["time"; "app"; "level"; "msg"; "data"; "Src"] /\
  (forall k v, WriteLog.Data r !! k = Some v -> encodable v = true) /\
  (exists j', encodeWriteLog r = Ok j') /\
  loggers sampleWorld !! 0%nat = Some sampleLogger /\
  level sampleLogger <= severityLevel SError /\
  exists res w',
    Write (out sampleLogger) (render (H := plainLib) j)
      (withFields sampleWorld 0%nat sampleLogger ∅) = Returned res w' /\
    call (H := plainLib) SError 0%nat "boom" [] sampleRuntime sampleWorld
      = Returned tt w'.
Proof.
  intros r j.
  assert (Hj : encodeWriteLog r = Ok j) by reflexivity.
  assert (Hr : forall k v, WriteLog.Data r !! k = Some v -> encodable v = true).
  { intros k v Hk. simpl in Hk. apply lookup_singleton_Some in Hk as [_ <-].
    reflexivity. }
  assert (Hl : loggers sampleWorld !! 0%nat = Some sampleLogger) by reflexivity.
  assert (Hle : level sampleLogger <= severityLevel SError) by (apply Z.leb_le; reflexivity).
  destruct (record_json_members (H := plainLib)) as (Hshape & Htotal & _ & Hcall).
  split; [exact Hj |].
  split; [exact (proj1 (Hshape r j Hj)) |].
  split; [exact Hr |].
  split; [exact (Htotal r Hr) |].
  split; [exact Hl |]. split; [exact Hle |].
  exact (Hcall sampleWorld 0%nat sampleLogger SError "boom" [] sampleRuntime j Hl Hle Hj).
Defined.

(** * Further properties *)

(** ** Levels *)

Section MoreLevelProperties.
Variable unicodeLower : string -> string.

Import Levels.

Lemma declared_range L : In L definedLevels <-> 0 <= L <= 7.
Proof.
  split.
  - revert L. apply (definedLevels_cases (fun L => 0 <= L <= 7)); unfold DebugLevel, InfoLevel, NoticeLevel,
      WarningLevel, ErrorLevel, CriticalLevel, AlertLevel, EmergencyLevel; lia.
  - intros HL.
    assert (Hcases : L = 0 \/ L = 1 \/ L = 2 \/ L = 3 \/ L = 4 \/ L = 5 \/ L = 6 \/ L = 7)
      by lia.
    simpl. unfold DebugLevel, InfoLevel, NoticeLevel, WarningLevel, ErrorLevel,
      CriticalLevel, AlertLevel, EmergencyLevel. intuition.
Qed.

Lemma String_undeclared L : ~ In L definedLevels -> String L = "".
Proof.
  intros HL. rewrite declared_range in HL.
  unfold String, logLevelLabels, DebugLevel, InfoLevel, NoticeLevel, WarningLevel,
    ErrorLevel, CriticalLevel, AlertLevel, EmergencyLevel.
  rewrite !lookup_insert_ne by lia. now rewrite lookup_empty.
Qed.

(** X1: [String] gives the empty string exactly for the levels that are not
    declared: the numbers below [DebugLevel] and above [EmergencyLevel]. *)
Theorem String_empty_iff_undeclared (L : Level) :
  String L = "" <-> (L < DebugLevel \/ EmergencyLevel < L).
Proof.
  unfold DebugLevel, EmergencyLevel. split.
  - intros Hempty. destruct (decide (0 <= L <= 7)) as [Hin | Hout]; [| lia].
    exfalso. apply declared_range in Hin. revert L Hin Hempty.
    apply (definedLevels_cases (fun L => String L = "" -> False)); discriminate.
  - intros Hout. apply String_undeclared. rewrite declared_range. lia.
Qed.

(** X2: whatever the string, [ToLevel] returns one of the eight declared
    levels. *)
Theorem ToLevel_declared (s : string) : In (ToLevel unicodeLower s) definedLevels.
Proof.
  unfold ToLevel.
  destruct (logLevelValues !! ToLower unicodeLower s) as [L |] eqn:Hl.
  - now apply logLevelValues_inv in Hl.
  - simpl. tauto.
Qed.

(** X3: the label of the level [ToLevel] returns is the lowered argument
    when that is a label, and ["notice"] when it is not. *)
Theorem String_ToLevel (s : string) :
  String (ToLevel unicodeLower s) = ToLower unicodeLower s \/
  (String (ToLevel unicodeLower s) = "notice" /\
   forall L, In L definedLevels -> String L <> ToLower unicodeLower s).
Proof.
  unfold ToLevel.
  destruct (logLevelValues !! ToLower unicodeLower s) as [L |] eqn:Hl.
  - left. now apply logLevelValues_inv in Hl.
  - right. split; [reflexivity |]. intros L HL Heq.
    rewrite <- Heq, (logLevelValues_label L HL) in Hl. discriminate.
Qed.

Lemma lowerByte_idempotent c : lowerByte (lowerByte c) = lowerByte c.
Proof. destruct c as [[] [] [] [] [] [] [] []]; reflexivity. Qed.

Lemma lowerByte_ascii c : isASCIIByte (lowerByte c) = isASCIIByte c.
Proof. destruct c as [[] [] [] [] [] [] [] []]; reflexivity. Qed.

Lemma lowerASCII_idempotent s : lowerASCII (lowerASCII s) = lowerASCII s.
Proof.
  induction s as [| c s IH]; simpl; [reflexivity |].
  now rewrite lowerByte_idempotent, IH.
Qed.

Lemma lowerASCII_ascii s : isASCII (lowerASCII s) = isASCII s.
Proof.
  induction s as [| c s IH]; simpl; [reflexivity |].
  now rewrite lowerByte_ascii, IH.
Qed.

(** X4: on strings of ASCII bytes [ToLevel] does not see the case of the
    letters: two such strings that differ only in case get the same level,
    and a string gets the level of its lowered form. *)
Theorem ToLevel_ignores_ASCII_case (s t : string) :
  isASCII s = true -> isASCII t = true ->
  lowerASCII s = lowerASCII t ->
  ToLevel unicodeLower s = ToLevel unicodeLower t /\
  ToLevel unicodeLower (lowerASCII s) = ToLevel unicodeLower s.
Proof.
  intros Hs Ht Heq. unfold ToLevel, ToLower.
  rewrite lowerASCII_ascii, Hs, Ht, lowerASCII_idempotent, Heq. split; reflexivity.
Qed.

End MoreLevelProperties.

Lemma ToLevel_ignores_ASCII_case_witness :
  Levels.isASCII "Critical" = true /\ Levels.isASCII "cRITICAL" = true /\
  Levels.lowerASCII "Critical" = Levels.lowerASCII "cRITICAL" /\
  Levels.ToLevel (fun s => s) "Critical" = Levels.ToLevel (fun s => s) "cRITICAL" /\
  Levels.ToLevel (fun s => s) (Levels.lowerASCII "Critical")
    = Levels.ToLevel (fun s => s) "Critical".
Proof.
  assert (Hs : Levels.isASCII "Critical" = true) by reflexivity.
  assert (Ht : Levels.isASCII "cRITICAL" = true) by reflexivity.
  assert (Heq : Levels.lowerASCII "Critical" = Levels.lowerASCII "cRITICAL")
    by reflexivity.
  split; [exact Hs |]. split; [exact Ht |]. split; [exact Heq |].
  exact (ToLevel_ignores_ASCII_case (fun s => s) "Critical" "cRITICAL" Hs Ht Heq).
Defined.

(** ** The sinks *)

Section SinkProperties.

Lemma World_eta (w : World) :
  {| loggers := loggers w; stdout := stdout w; stdoutErr := stdoutErr w;
     posted := posted w |} = w.
Proof. now destruct w. Qed.

Lemma Write_working (o : Writer) (p : string) (w : World) :
  stdoutErr w = None ->
  Write o p w =
  Returned (Z.of_nat (String.length p) + 1, None)
    {| loggers := loggers w;
       stdout := stdout w ++ [printedLine p];
       stdoutErr := None;
       posted := posted w ++ postedBy o p |}.
Proof.
  intros He. destruct o as [| url]; unfold Write, mbind, Go_bind, Println, goPost,
    mret, Go_ret, postedBy, printedLine.
  - rewrite He, app_nil_r. reflexivity.
  - destruct (String.eqb url ""); simpl; rewrite He, ?app_nil_r; reflexivity.
Qed.

(** X5: on a standard output that works, a sink prints the payload and a
    newline as one line, returns the number of bytes printed and no error;
    the remote sink with an address also hands over one request with the
    same bytes, and with an empty address none.  No logger is touched. *)
Theorem Write_on_working_stdout (o : Writer) (p : string) (w : World) :
  stdoutErr w = None ->
  Write o p w =
  Returned (Z.of_nat (String.length p) + 1, None)
    {| loggers := loggers w;
       stdout := stdout w ++ [printedLine p];
       stdoutErr := None;
       posted := posted w ++ postedBy o p |}.
Proof. apply Write_working. Qed.

End SinkProperties.

Lemma Write_on_working_stdout_witness :
  stdoutErr remoteWorld = None /\
  Write (postWriter "http://logs.example/ingest") "{}" remoteWorld =
  Returned (3, None)
    {| loggers := loggers remoteWorld;
       stdout := [printedLine "{}"];
       stdoutErr := None;
       posted := [("http://logs.example/ingest", "{}")] |}.
Proof.
  assert (He : stdoutErr remoteWorld = None) by reflexivity.
  split; [exact He |].
  exact (Write_on_working_stdout (postWriter "http://logs.example/ingest") "{}"
           remoteWorld He).
Defined.

(** ** The logger: what a call changes and what it writes *)

Section CallProperties.
Context `{GoLib}.

Lemma output_logger_after (w w' : World) l lg callDepth lvl msg rt :
  loggers w !! l = Some lg ->
  output l callDepth lvl msg rt w = Returned tt w' ->
  loggers w' = <[l := drained lg]> (loggers w) /\ stdoutErr w' = stdoutErr w.
Proof.
  intros Hl Hrun. destruct (Z.lt_ge_cases lvl (level lg)) as [Hlt | Hge].
  - rewrite (output_gated w l lg) in Hrun by assumption.
    injection Hrun as <-. split; reflexivity.
  - rewrite (output_emitted w l lg) in Hrun by assumption.
    destruct (Write_returns (out lg) (payloadOf (recordOf lg callDepth lvl msg rt))
                (withFields w l lg ∅)) as (res & w1 & Hw & Hlog & Herr).
    rewrite Hw in Hrun. injection Hrun as <-. split; assumption.
Qed.

(** X7: a severity call changes one thing in the store of loggers: the
    fields of the logger it is called on.  That logger keeps its name, its
    threshold and its sink, and every other logger is as it was. *)
Theorem call_changes_only_fields (w w' : World) l lg m msg args rt :
  loggers w !! l = Some lg ->
  call m l msg args rt w = Returned tt w' ->
  loggers w' !! l = Some (drained lg) /\
  (forall l0, l0 <> l -> loggers w' !! l0 = loggers w !! l0).
Proof.
  intros Hl Hrun. rewrite call_output in Hrun.
  destruct (output_logger_after w w' l lg _ _ _ _ Hl Hrun) as [-> _]. split.
  - apply lookup_insert_eq.
  - intros l0 Hne. now apply lookup_insert_ne.
Qed.

Lemma output_printed (w : World) l lg callDepth lvl msg rt :
  loggers w !! l = Some lg -> level lg <= lvl -> stdoutErr w = None ->
  output l callDepth lvl msg rt w =
  Returned tt
    {| loggers := <[l := drained lg]> (loggers w);
       stdout := stdout w ++ [printedLine (payloadOf (recordOf lg callDepth lvl msg rt))];
       stdoutErr := None;
       posted := posted w ++
                 postedBy (out lg) (payloadOf (recordOf lg callDepth lvl msg rt)) |}.
Proof.
  intros Hl Hle He. rewrite (output_emitted w l lg) by assumption.
  rewrite Write_working by exact He. reflexivity.
Qed.

(** X8: a call at or above the threshold, on a standard output that works,
    adds exactly one line to standard output -- the payload of its record
    and a newline -- and, for the remote sink with an address, exactly one
    request with the same payload. *)
Theorem emitted_call_prints_one_line (w : World) l lg m msg args rt :
  loggers w !! l = Some lg ->
  level lg <= severityLevel m ->
  stdoutErr w = None ->
  exists w',
    call m l msg args rt w = Returned tt w' /\
    stdout w' =
      (stdout w ++
       [printedLine (payloadOf (recordOf lg 2 (severityLevel m) (Sprintf msg args) rt))])%list /\
    posted w' =
      (posted w ++
       postedBy (out lg)
         (payloadOf (recordOf lg 2 (severityLevel m) (Sprintf msg args) rt)))%list.
Proof.
  intros Hl Hle He. rewrite call_output, (output_printed w l lg) by assumption.
  eexists. split; [reflexivity |]. split; reflexivity.
Qed.

Lemma encodeWriteLog_no_data (r : WriteLog.t) :
  WriteLog.Data r = ∅ ->
  encodeWriteLog r =
  Ok (JObject [("time", JString (WriteLog.Time r)); ("app", JString (WriteLog.App r));
               ("level", JString (WriteLog.Level r)); ("msg", JString (WriteLog.Msg r));
               ("Src", encodeSrc (WriteLog.Src r))]).
Proof. intros Hr. unfold encodeWriteLog. rewrite Hr. reflexivity. Qed.

(** X9: fields are used once.  Whatever a first call on a logger did --
    gated or emitted, marshalled or not -- the record of the next call on
    it has no fields: it always marshals, its object has no [data] member,
    and on a standard output that works its text is the line printed. *)
Theorem fields_consumed_once (w w1 : World) l lg m1 msg1 args1 rt1 m2 msg2 args2 rt2 :
  loggers w !! l = Some lg ->
  call m1 l msg1 args1 rt1 w = Returned tt w1 ->
  level lg <= severityLevel m2 ->
  exists j w2,
    encodeWriteLog (recordOf (drained lg) 2 (severityLevel m2) (Sprintf msg2 args2) rt2)
      = Ok j /\
    memberKeys j = ["time"; "app"; "level"; "msg"; "Src"] /\
    call m2 l msg2 args2 rt2 w1 = Returned tt w2 /\
    (stdoutErr w = None -> stdout w2 = (stdout w1 ++ [printedLine (render j)])%list).
Proof.
  intros Hl Hrun1 Hle.
  rewrite call_output in Hrun1.
  destruct (output_logger_after w w1 l lg _ _ _ _ Hl Hrun1) as [Hlog Herr].
  assert (Hl1 : loggers w1 !! l = Some (drained lg)).
  { rewrite Hlog. apply lookup_insert_eq. }
  set (r := recordOf (drained lg) 2 (severityLevel m2) (Sprintf msg2 args2) rt2).
  pose proof (encodeWriteLog_no_data r eq_refl) as Hj.
  destruct (output_returns w1 l (drained lg) 2 (severityLevel m2) (Sprintf msg2 args2) rt2 Hl1)
    as (w2 & Hrun2 & _).
  eexists. exists w2. split; [exact Hj |]. split; [reflexivity |].
  rewrite call_output. split; [exact Hrun2 |].
  intros He. rewrite <- Herr in He.
  rewrite (output_printed w1 l (drained lg)) in Hrun2 by assumption.
  injection Hrun2 as <-. simpl. unfold payloadOf, Marshal. fold r. now rewrite Hj.
Qed.

(** X10: when the runtime cannot name the caller, a call at or above the
    threshold is emitted all the same, and the source location of its
    record is the file ["???"] at line 0. *)
Theorem unknown_caller_record (w : World) l lg m msg args rt (j : JSON) :
  loggers w !! l = Some lg ->
  level lg <= severityLevel m ->
  Caller rt 2 = None ->
  encodeWriteLog (recordOf lg 2 (severityLevel m) (Sprintf msg args) rt) = Ok j ->
  member "Src" j = Some (JObject [("file", JString "???"); ("line", JNumber 0)]) /\
  exists res w',
    Write (out lg) (render j) (withFields w l lg ∅) = Returned res w' /\
    call m l msg args rt w = Returned tt w'.
Proof.
  intros Hl Hle Hcaller Hj. split.
  - unfold encodeWriteLog, recordOf in Hj. rewrite Hcaller in Hj. simpl in Hj.
    destruct (size (data lg) =? 0)%nat.
    + injection Hj as <-. reflexivity.
    + destruct (encodeData (data lg)); [| discriminate]. injection Hj as <-. reflexivity.
  - rewrite call_output, (output_emitted w l lg) by assumption.
    unfold payloadOf, Marshal. rewrite Hj.
    destruct (Write_returns (out lg) (render j) (withFields w l lg ∅))
      as (res & w' & Hw & _).
    rewrite Hw. now exists res, w'.
Qed.

(** X11: on a logger whose threshold lies above [EmergencyLevel], [Fatal]
    writes nothing: it empties the fields and ends the process with
    status 1. *)
Theorem Fatal_above_emergency_is_silent (w : World) l lg msg args rt :
  loggers w !! l = Some lg ->
  Levels.EmergencyLevel < level lg ->
  Fatal l msg args rt w = Exited 1 (withFields w l lg ∅) /\
  sinkOutput (withFields w l lg ∅) = sinkOutput w.
Proof.
  intros Hl Hlt. split; [| reflexivity].
  unfold Fatal, mbind, Go_bind. now rewrite (output_gated w l lg) by assumption.
Qed.

(** X12: [New] returns a pointer that no logger of the store uses, to a
    logger with the given name and threshold, no field and the
    standard-output sink; the loggers there were are kept and nothing is
    written. *)
Theorem New_allocates (name : string) (threshold : Levels.Level) (w : World) :
  exists l w',
    New name threshold w = Returned l w' /\
    loggers w !! l = None /\
    loggers w' !! l =
      Some {| level := threshold; app := name; data := ∅; out := stdOutWriter |} /\
    (forall l0, l0 <> l -> loggers w' !! l0 = loggers w !! l0) /\
    sinkOutput w' = sinkOutput w.
Proof.
  unfold New, alloc. do 2 eexists. split; [reflexivity |].
  split; [apply fresh_logger |]. split; [simpl; apply lookup_insert_eq |].
  split; [| reflexivity]. intros l0 Hne. simpl. now apply lookup_insert_ne.
Qed.

End CallProperties.

(** ** The merge of [With], further *)

#[local] Set Warnings "-clear-no-such-hyp".

Section MoreMergeProperties.

Lemma dom_mergeNode (set node : Data) :
  dom (mergeNode set node) = dom set ∪ dom node.
Proof.
  apply set_eq. intros key.
  rewrite elem_of_union, !elem_of_dom, mergeNode_lookup.
  destruct (node !! key) as [v |], (set !! key) as [c |]; unfold is_Some;
    (split; [intros [x Hx] | intros [[x Hx] | [x Hx]]]); try discriminate; eauto.
Qed.

(** X14: [With] loses no key and invents none: the keys of the field set
    it builds are the keys of the receiver's fields and of its
    arguments. *)
Theorem mergeFields_dom (fields : Data) (nodes : list Data) :
  dom (mergeFields fields nodes) = dom fields ∪ ⋃ (dom <$> nodes).
Proof.
  unfold mergeFields. rewrite copyInto_empty. revert fields.
  induction nodes as [| node nodes IH]; intros fields; simpl.
  - set_solver.
  - rewrite IH, dom_mergeNode. set_solver.
Qed.





End MoreMergeProperties.

(** ** [With] on slices with their backing arrays

    When no two fields of the receiver hold slices on the same array and
    no value supplied is a slice, every [append] of [With] writes past the
    length of the one slice on its array, or into an array made during
    the call.  The fields [Slices.With] returns then show what the merge
    on lists gives, and the receiver shows what it showed.  The lemmas
    hold for every growth policy of [append]. *)

Section SliceProperties.
Variable grow : nat -> nat.




















(** *** What [With] leaves of the receiver *)













End SliceProperties.

(** X26: two loggers derived from one logger are not independent.  With
    a runtime that leaves room after the third element, as gc does,
    [l := New(...).With(Data{"k": 1}).With(Data{"k": 2}).With(Data{"k": 3})]
    holds a slice with room under ["k"]; [a := l.With(Data{"k": 4})] and
    [b := l.With(Data{"k": 5})] both append to it in place, and [a], which
    showed [1, 2, 3, 4], shows [1, 2, 3, 5] once [b] is made. *)
Theorem With_sibling_overwrite (grow : nat -> nat) :
  (3 < grow 2)%nat ->
  exists l1 w1 l2 w2 l w a wa b wb,
    Slices.With grow 0 [ {[ "k" := Slices.AInt 1 ]} ]
      (Slices.New "svc" Levels.InfoLevel Slices.noWorld).2 = Some (l1, w1) /\
    Slices.With grow l1 [ {[ "k" := Slices.AInt 2 ]} ] w1 = Some (l2, w2) /\
    Slices.With grow l2 [ {[ "k" := Slices.AInt 3 ]} ] w2 = Some (l, w) /\
    Slices.With grow l [ {[ "k" := Slices.AInt 4 ]} ] w = Some (a, wa) /\
    Slices.With grow l [ {[ "k" := Slices.AInt 5 ]} ] wa = Some (b, wb) /\
    Slices.fieldsShown 1 wa a = Some {[ "k" := VSlice [VInt 1; VInt 2; VInt 3; VInt 4] ]} /\
    Slices.fieldsShown 1 wb a = Some {[ "k" := VSlice [VInt 1; VInt 2; VInt 3; VInt 5] ]} /\
    Slices.fieldsShown 1 wb b = Some {[ "k" := VSlice [VInt 1; VInt 2; VInt 3; VInt 5] ]} /\
    Slices.fieldsShown 1 wb l = Some {[ "k" := VSlice [VInt 1; VInt 2; VInt 3] ]}.
Proof.
  intros Hroom.
  destruct (grow 2%nat) as [| [| [| [| spare]]]] eqn:Hgrow; try lia.
  do 10 eexists.
  split; [vm_compute; reflexivity |].
  split; [vm_compute; reflexivity |].
  split; [vm_compute; rewrite Hgrow; vm_compute; reflexivity |].
  split; [vm_compute; reflexivity |].
  split; [vm_compute; reflexivity |].
  repeat split; vm_compute; reflexivity.
Qed.

(** ** The properties of [With] on slices at sample inputs *)







Lemma With_sibling_overwrite_witness :
  (3 < Slices.doubling 2)%nat /\
  exists l w a wa b wb,
    Slices.With Slices.doubling l [ {[ "k" := Slices.AInt 4 ]} ] w = Some (a, wa) /\
    Slices.With Slices.doubling l [ {[ "k" := Slices.AInt 5 ]} ] wa = Some (b, wb) /\
    Slices.fieldsShown 1 wa a = Some {[ "k" := VSlice [VInt 1; VInt 2; VInt 3; VInt 4] ]} /\
    Slices.fieldsShown 1 wb a = Some {[ "k" := VSlice [VInt 1; VInt 2; VInt 3; VInt 5] ]}.
Proof.
  assert (Hroom : (3 < Slices.doubling 2)%nat) by (unfold Slices.doubling; simpl; lia).
  split; [exact Hroom |].
  destruct (With_sibling_overwrite Slices.doubling Hroom)
    as (l1 & w1 & l2 & w2 & l & w & a & wa & b & wb & _ & _ & _ & Ha & Hb & Hshown1 & Hshown2 & _).
  exists l, w, a, wa, b, wb. split; [exact Ha |]. split; [exact Hb |].
  split; [exact Hshown1 | exact Hshown2].
Defined.

(** ** Marshalling, further *)

Section MoreRecordProperties.
Context `{GoLib}.

(** A value with a function in it has no encoding. *)
Lemma encodeValue_unencodable (v : Value) :
  encodable v = false -> encodeValue v = Failed unsupportedFunc.
Proof.
  revert v. fix IH 1. intros [| b | n | s | elems |]; simpl; intros Henc;
    try discriminate; [| reflexivity].
  assert (Hitems :
    (fix encodeItems (l : list Value) : result (list JSON) :=
       match l with
       | [] => Ok []
       | x :: l' =>
           match encodeValue x with
           | Failed e => Failed e
           | Ok j =>
               match encodeItems l' with
               | Failed e => Failed e
               | Ok js => Ok (j :: js)
               end
           end
       end) elems = Failed unsupportedFunc).
  { induction elems as [| x elems IHelems]; [discriminate |].
    simpl in Henc. destruct (encodable x) eqn:Hx.
    - destruct (encodeValue_encodable x Hx) as (j & ->).
      simpl in Henc. now rewrite (IHelems Henc).
    - now rewrite (IH x Hx). }
  now rewrite Hitems.
Qed.

Lemma encodeMembers_unencodable (entries : list (string * Value)) :
  Exists (fun kv => encodable kv.2 = false) entries ->
  encodeMembers entries = Failed unsupportedFunc.
Proof.
  induction entries as [| [k v] entries IH]; intros Hex; [inversion Hex |].
  simpl. destruct (encodable v) eqn:Hv.
  - destruct (encodeValue_encodable v Hv) as (j & ->).
    rewrite IH; [reflexivity |].
    apply Exists_cons in Hex as [Hhere | Hlater]; [simpl in Hhere; congruence | exact Hlater].
  - now rewrite (encodeValue_unencodable v Hv).
Qed.

Lemma encodeData_unencodable (d : Data) k v :
  d !! k = Some v -> encodable v = false -> encodeData d = Failed unsupportedFunc.
Proof.
  intros Hk Hv. unfold encodeData.
  rewrite encodeMembers_unencodable; [reflexivity |].
  apply Exists_exists. exists (k, v). split; [| exact Hv].
  unfold sortedEntries. rewrite merge_sort_Permutation.
  now apply elem_of_map_to_list.
Qed.

(** X17: a record one of whose fields holds a function value, at any depth
    of a sequence, does not marshal: the error is the encoder's
    ["json: unsupported type: func()"] and the payload of the record is the
    fallback text with it.  A record whose fields hold no function value
    marshals, and its payload is the text of its object. *)
Theorem Marshal_outcome (r : WriteLog.t) :
  ((exists k v, WriteLog.Data r !! k = Some v /\ encodable v = false) ->
   Marshal r = Failed unsupportedFunc /\
   payloadOf r =
     "Logger unable to marshal log output to JSON: json: unsupported type: func()") /\
  ((forall k v, WriteLog.Data r !! k = Some v -> encodable v = true) ->
   exists j, encodeWriteLog r = Ok j /\ Marshal r = Ok (render j) /\
             payloadOf r = render j).
Proof.
  split.
  - intros (k & v & Hk & Hv).
    assert (Hbad : Marshal r = Failed unsupportedFunc).
    { unfold Marshal, encodeWriteLog.
      destruct (size (WriteLog.Data r) =? 0)%nat eqn:Hsize.
      - apply size_zero_empty in Hsize. rewrite Hsize, lookup_empty in Hk. discriminate.
      - now rewrite (encodeData_unencodable _ k v Hk Hv). }
    split; [exact Hbad |]. unfold payloadOf. now rewrite Hbad.
  - intros Hall.
    assert (Hj : exists j, encodeWriteLog r = Ok j).
    { unfold encodeWriteLog.
      destruct (size (WriteLog.Data r) =? 0)%nat; [eexists; reflexivity |].
      destruct (encodeData_encodable _ Hall) as (d & ->). eexists; reflexivity. }
    destruct Hj as (j & Hj). exists j. split; [exact Hj |].
    unfold payloadOf, Marshal. rewrite Hj. split; reflexivity.
Qed.




End MoreRecordProperties.

(** ** The setup helper *)

Section SetupProperties.
Context `{GoLib}.
Variable unicodeLower : string -> string.
Variable Getenv : string -> string.

Lemma mergeFields_build (build : string) :
  mergeFields ∅ [ {[ "build" := VString build ]} ] = {[ "build" := VString build ]}.
Proof.
  apply map_eq. intros key. rewrite mergeFields_lookup, lookup_empty.
  unfold suppliedFor. simpl.
  destruct (decide (key = "build")) as [-> | Hne].
  - now rewrite !lookup_singleton_eq.
  - now rewrite !lookup_singleton_ne by congruence.
Qed.

Lemma SetupLogger_returns (name build : string) (w : World) :
  exists l1 l,
    loggers w !! l1 = None /\ loggers w !! l = None /\ l <> l1 /\
    SetupLogger unicodeLower Getenv name build w =
    Returned l
      {| loggers :=
           <[l := builtLogger (Levels.ToLevel unicodeLower (Getenv "LOG_LEVEL")) name build]>
             (<[l1 := {| level := Levels.ToLevel unicodeLower (Getenv "LOG_LEVEL");
                         app := name; data := ∅; out := stdOutWriter |}]> (loggers w));
         stdout := stdout w; stdoutErr := stdoutErr w; posted := posted w |}.
Proof.
  set (lg1 := {| level := Levels.ToLevel unicodeLower (Getenv "LOG_LEVEL");
                 app := name; data := ∅; out := stdOutWriter |}).
  set (l1 := fresh (dom (loggers w))).
  set (w1 := {| loggers := <[l1 := lg1]> (loggers w); stdout := stdout w;
                stdoutErr := stdoutErr w; posted := posted w |}).
  pose proof (fresh_logger w) as Hl1. fold l1 in Hl1.
  pose proof (fresh_logger w1) as Hl. simpl in Hl.
  set (l := fresh (dom (<[l1 := lg1]> (loggers w)))) in *.
  assert (Hne : l <> l1).
  { intros ->. now rewrite lookup_insert_eq in Hl. }
  exists l1, l. split; [exact Hl1 |].
  split; [now rewrite lookup_insert_ne in Hl by congruence |].
  split; [exact Hne |].
  unfold SetupLogger, New. unfold mbind at 1, Go_bind at 1, alloc at 1.
  fold l1 lg1 w1.
  rewrite (With_returns w1 l1 lg1) by (simpl; apply lookup_insert_eq).
  simpl. now rewrite mergeFields_build.
Qed.

(** X19: [SetupLogger] returns a pointer that was not in use, to a logger
    with the given name, the threshold [ToLevel] reads from [LOG_LEVEL],
    the standard-output sink and one field, [build]; the loggers there
    were are kept and nothing is written. *)
Theorem SetupLogger_result (name build : string) (w : World) :
  exists l w',
    SetupLogger unicodeLower Getenv name build w = Returned l w' /\
    loggers w !! l = None /\
    loggers w' !! l =
      Some {| level := Levels.ToLevel unicodeLower (Getenv "LOG_LEVEL"); app := name;
              data := {[ "build" := VString build ]}; out := stdOutWriter |} /\
    (forall l0 lg0, loggers w !! l0 = Some lg0 -> loggers w' !! l0 = Some lg0) /\
    sinkOutput w' = sinkOutput w.
Proof.
  destruct (SetupLogger_returns name build w) as (l1 & l & Hl1 & Hl & Hne & ->).
  do 2 eexists. split; [reflexivity |]. split; [exact Hl |].
  split; [simpl; apply lookup_insert_eq |]. split; [| reflexivity].
  intros l0 lg0 Hl0. simpl.
  rewrite !lookup_insert_ne by congruence. exact Hl0.
Qed.

Lemma encodeWriteLog_build (r : WriteLog.t) (build : string) :
  WriteLog.Data r = {[ "build" := VString build ]} ->
  encodeWriteLog r =
  Ok (JObject [("time", JString (WriteLog.Time r)); ("app", JString (WriteLog.App r));
               ("level", JString (WriteLog.Level r)); ("msg", JString (WriteLog.Msg r));
               ("data", JObject [("build", JString build)]);
               ("Src", encodeSrc (WriteLog.Src r))]).
Proof.
  intros Hr. unfold encodeWriteLog, encodeData, sortedEntries. rewrite Hr.
  rewrite map_size_singleton, map_to_list_singleton. reflexivity.
Qed.

(** X20: the [build] field goes to the first call on the logger
    [SetupLogger] returns, and only to it.  A first call below the
    threshold writes nothing and drops the field.  A first call at or above
    it writes a record whose [app] is the given name and whose [data] is
    the object with the one member [build]. *)
Theorem SetupLogger_first_call (name build : string) (w w1 : World) l m msg args rt :
  SetupLogger unicodeLower Getenv name build w = Returned l w1 ->
  (severityLevel m < Levels.ToLevel unicodeLower (Getenv "LOG_LEVEL") ->
   exists w2,
     call m l msg args rt w1 = Returned tt w2 /\
     sinkOutput w2 = sinkOutput w /\
     fieldsOf w2 l = Some ∅) /\
  (Levels.ToLevel unicodeLower (Getenv "LOG_LEVEL") <= severityLevel m ->
   exists j w2,
     member "app" j = Some (JString name) /\
     member "data" j = Some (JObject [("build", JString build)]) /\
     call m l msg args rt w1 = Returned tt w2 /\
     fieldsOf w2 l = Some ∅ /\
     (stdoutErr w = None -> stdout w2 = (stdout w ++ [printedLine (render j)])%list)).
Proof.
  intros Hsetup.
  set (built := builtLogger (Levels.ToLevel unicodeLower (Getenv "LOG_LEVEL")) name build).
  destruct (SetupLogger_returns name build w) as (l1 & l' & _ & _ & _ & Hrun).
  rewrite Hrun in Hsetup. injection Hsetup as <- <-.
  set (w1 := {| loggers := _; stdout := stdout w |}).
  assert (Hl : loggers w1 !! l' = Some built).
  { simpl. apply lookup_insert_eq. }
  rewrite call_output. split.
  - intros Hlt. rewrite (output_gated w1 l' built) by assumption.
    eexists. split; [reflexivity |]. split; [reflexivity |].
    unfold fieldsOf, withFields. simpl. now rewrite lookup_insert_eq.
  - intros Hle.
    set (r := recordOf built 2 (severityLevel m) (Sprintf msg args) rt).
    pose proof (encodeWriteLog_build r build eq_refl) as Hj.
    destruct (output_returns w1 l' built 2 (severityLevel m)
                (Sprintf msg args) rt Hl) as (w2 & Hrun2 & Hfields).
    match type of Hj with _ = Ok ?j0 => exists j0 end.
    exists w2. split; [reflexivity |]. split; [reflexivity |].
    split; [exact Hrun2 |]. split; [exact Hfields |].
    intros He.
    rewrite (output_printed w1 l' built) in Hrun2 by assumption.
    injection Hrun2 as <-. simpl. unfold payloadOf, Marshal. fold r. now rewrite Hj.
Qed.

End SetupProperties.

Lemma SetupLogger_first_call_witness :
  exists l w1,
    SetupLogger (fun s => s) noEnv "svc" "1.4.2" emptyWorld = Returned l w1 /\
    (severityLevel SInfo < Levels.ToLevel (fun s => s) (noEnv "LOG_LEVEL") /\
     exists w2,
       call (H := plainLib) SInfo l "starting" [] sampleRuntime w1 = Returned tt w2 /\
       sinkOutput w2 = sinkOutput emptyWorld /\
       fieldsOf w2 l = Some ∅) /\
    (Levels.ToLevel (fun s => s) (noEnv "LOG_LEVEL") <= severityLevel SWarn /\
     exists j w2,
       member "data" j = Some (JObject [("build", JString "1.4.2")]) /\
       call (H := plainLib) SWarn l "starting" [] sampleRuntime w1 = Returned tt w2 /\
       (stdoutErr emptyWorld = None ->
        stdout w2 = (stdout emptyWorld ++ [printedLine (render (H := plainLib) j)])%list)).
Proof.
  destruct (SetupLogger_result (fun s => s) noEnv "svc" "1.4.2" emptyWorld)
    as (l & w1 & Hsetup & _).
  exists l, w1. split; [exact Hsetup |].
  assert (Hlt : severityLevel SInfo < Levels.ToLevel (fun s => s) (noEnv "LOG_LEVEL"))
    by reflexivity.
  assert (Hle : Levels.ToLevel (fun s => s) (noEnv "LOG_LEVEL") <= severityLevel SWarn)
    by (apply Z.leb_le; reflexivity).
  split.
  - split; [exact Hlt |].
    exact (proj1 (SetupLogger_first_call (H := plainLib) (fun s => s) noEnv "svc" "1.4.2"
                    emptyWorld w1 l SInfo "starting" [] sampleRuntime Hsetup) Hlt).
  - split; [exact Hle |].
    destruct (proj2 (SetupLogger_first_call (H := plainLib) (fun s => s) noEnv "svc" "1.4.2"
                       emptyWorld w1 l SWarn "starting" [] sampleRuntime Hsetup) Hle)
      as (j & w2 & _ & Hdata & Hrun & _ & Hline).
    exists j, w2. split; [exact Hdata |]. split; [exact Hrun |]. exact Hline.
Defined.

(** ** Source-location truncation, further *)

Section MorePathProperties.
Import Filepath.

Lemma TruncateFile_File (s : Src) :
  File (TruncateFile s) =
  match last (segments (Split (File s)).1) with
  | Some seg => Join [seg; (Split (File s)).2]
  | None => (Split (File s)).2
  end.
Proof.
  unfold TruncateFile. destruct (Split (File s)) as [dir file]. simpl.
  rewrite FieldsFunc_segments, nth_last_default.
  destruct (segments dir) as [| p parts] eqn:Hsegs using rev_ind; [reflexivity |].
  rewrite length_app, last_snoc. simpl.
  replace (0 <? length parts + 1)%nat with true by (symmetry; apply Nat.ltb_lt; lia).
  reflexivity.
Qed.

(** X21: the adapter's [srcFileParse] computes the file name that
    [Src.TruncateFile] leaves in the struct. *)
Theorem srcFileParse_TruncateFile (filename : string) (line : Z) :
  srcFileParse filename = File (TruncateFile {| File := filename; Line := line |}).
Proof.
  unfold srcFileParse, TruncateFile. simpl.
  destruct (Split filename) as [dir file].
  now destruct (0 <? length (FieldsFunc dir (fun c => Ascii.eqb c Separator)))%nat.
Qed.

Lemma splitAll_app (a b : string) :
  splitAll (a ++ String.String Separator b) = (splitAll a ++ splitAll b)%list.
Proof.
  induction a as [| c a IH]; [reflexivity |].
  rewrite append_cons. simpl. rewrite IH.
  destruct (IsPathSeparator c); [reflexivity |].
  destruct (splitAll_cons a) as (h & t & ->). reflexivity.
Qed.

Lemma segments_app (a b : string) :
  segments (a ++ String.String Separator b) = (segments a ++ segments b)%list.
Proof. unfold segments. now rewrite splitAll_app, filter_app. Qed.

Lemma splitAll_name (s : string) : noSeparator s = true -> splitAll s = [s].
Proof.
  induction s as [| c s IH]; [reflexivity |]. simpl. intros Hs.
  apply andb_prop in Hs as [Hc Hs]. apply negb_true_iff in Hc.
  now rewrite Hc, IH.
Qed.

Lemma segments_name (s : string) :
  s <> "" -> noSeparator s = true -> segments s = [s].
Proof.
  intros Hne Hs. unfold segments. rewrite splitAll_name by exact Hs.
  now rewrite filter_cons_True.
Qed.

Lemma segments_nil : segments "" = [].
Proof. reflexivity. Qed.

Lemma Split_dir_file (dir' file : string) :
  noSeparator file = true ->
  Split ((dir' ++ String.String Separator "") ++ file)
    = (dir' ++ String.String Separator "", file).
Proof.
  intros Hfile. apply splitsAs_Split. split; [reflexivity |]. split; [exact Hfile |].
  right. now exists dir'.
Qed.

Lemma Split_name (file : string) : noSeparator file = true -> Split file = ("", file).
Proof.
  intros Hfile. apply splitsAs_Split. split; [reflexivity |]. split; [exact Hfile |].
  now left.
Qed.

Lemma TruncateFile_prefixed (prefix seg file : string) (line : Z) :
  seg <> "" -> noSeparator seg = true -> noSeparator file = true ->
  File (TruncateFile
          {| File := prefix ++ String.String Separator
                       (seg ++ String.String Separator file);
             Line := line |})
    = Join [seg; file] /\
  File (TruncateFile {| File := seg ++ String.String Separator file; Line := line |})
    = Join [seg; file].
Proof.
  intros Hne Hseg Hfile.
  assert (Hone : forall dir0,
    File (TruncateFile
            {| File := (dir0 ++ seg) ++ String.String Separator file; Line := line |})
      = match last (segments (dir0 ++ seg ++ String.String Separator "")) with
        | Some s => Join [s; file]
        | None => file
        end).
  { intros dir0. rewrite TruncateFile_File. simpl.
    replace ((dir0 ++ seg) ++ String.String Separator file)
      with (((dir0 ++ seg) ++ String.String Separator "") ++ file)
      by (rewrite !append_assoc; reflexivity).
    rewrite Split_dir_file by exact Hfile. simpl. now rewrite append_assoc. }
  split.
  - replace (prefix ++ String.String Separator (seg ++ String.String Separator file))
      with (((prefix ++ String.String Separator "") ++ seg) ++ String.String Separator file)
      by (rewrite !append_assoc; reflexivity).
    rewrite Hone. rewrite append_assoc. rewrite append_cons, append_nil_l.
    rewrite !segments_app, (segments_name seg), segments_nil by assumption.
    rewrite app_nil_r, last_snoc. reflexivity.
  - rewrite <- (append_nil_l seg) at 1. rewrite Hone, append_nil_l.
    rewrite segments_app, (segments_name seg), segments_nil by assumption.
    reflexivity.
Qed.

(** X22: the directories above the last one play no part: whatever
    precedes [seg/file] in a path, truncation gives what it gives for
    [seg/file] alone, the join of the two names. *)
Theorem TruncateFile_prefix_independent (prefix seg file : string) (line : Z) :
  seg <> "" -> noSeparator seg = true -> noSeparator file = true ->
  File (TruncateFile
          {| File := prefix ++ String.String Separator
                       (seg ++ String.String Separator file);
             Line := line |})
    = Join [seg; file] /\
  File (TruncateFile {| File := seg ++ String.String Separator file; Line := line |})
    = Join [seg; file].
Proof. apply TruncateFile_prefixed. Qed.

(** *** The shape of the result *)

Lemma name_cases (s : string) :
  noSeparator s = true -> s = "" \/ s = "." \/ s = ".." \/ plainName s.
Proof.
  intros Hs. destruct (string_dec s ""); [tauto |].
  destruct (string_dec s "."); [tauto |]. destruct (string_dec s ".."); [tauto |].
  right. right. right. repeat split; assumption.
Qed.

Lemma backtrack_names (out : list ascii) :
  Forall (fun c => IsPathSeparator c = false) out -> backtrack 0 out = [].
Proof.
  induction 1 as [| c out Hc _ IH]; [reflexivity |].
  cbn [backtrack]. rewrite Hc. destruct out as [| c' out]; [reflexivity |].
  change ((0 <? length (c' :: out))%nat && negb false) with true. exact IH.
Qed.

Lemma chars_names (s : string) :
  noSeparator s = true -> Forall (fun c => IsPathSeparator c = false) (chars s).
Proof.
  induction s as [| c s IH]; simpl; intros Hs; [constructor |].
  apply andb_prop in Hs as [Hc Hs]. apply negb_true_iff in Hc. constructor; auto.
Qed.

Lemma string_of_list_ascii_app (l1 l2 : list ascii) :
  string_of_list_ascii (l1 ++ l2) = string_of_list_ascii l1 ++ string_of_list_ascii l2.
Proof.
  induction l1 as [| c l1 IH]; [reflexivity |]. simpl. now rewrite IH, append_cons.
Qed.

(** The text [Clean] returns for the buffer its loop ends with, when the
    last thing written was the name [s]. *)
Lemma Clean_result (s : string) (tl : list ascii) :
  s <> "" ->
  cleaned (rev (chars s) ++ tl) = string_of_list_ascii (rev tl) ++ s.
Proof.
  intros Hne. unfold cleaned. destruct (rev (chars s) ++ tl)%list eqn:Hout.
  - apply app_eq_nil in Hout as [Hs _].
    apply (f_equal (@rev ascii)) in Hs. rewrite rev_involutive in Hs.
    now apply chars_nil in Hs.
  - rewrite <- Hout, rev_app_distr, rev_involutive, string_of_list_ascii_app.
    now rewrite string_of_chars.
Qed.

Lemma Clean_after_plain (seg rest : string) :
  plainName seg ->
  Clean (seg ++ String.String Separator rest) =
  cleaned (cleanLoop false rest false (rev (chars seg)) 0).
Proof.
  intros Hseg. pose proof Hseg as (Hne & Hs & _).
  destruct seg as [| c seg]; [congruence |].
  assert (Hc : IsPathSeparator c = false).
  { simpl in Hs. apply andb_prop in Hs as [Hc _]. now apply negb_true_iff in Hc. }
  unfold Clean. rewrite append_cons, Hc, <- append_cons.
  rewrite cleanLoop_plain by exact Hseg.
  cbn [negb andb orb length Nat.eqb]. rewrite app_nil_r.
  change (cleanLoop false (String.String Separator rest) true
            (rev (chars (String.String c seg))) 0)
    with (cleanLoop false rest false (rev (chars (String.String c seg))) 0).
  reflexivity.
Qed.

Lemma Clean_after_dot (rest : string) :
  Clean ("." ++ String.String Separator rest) = cleaned (cleanLoop false rest false [] 0).
Proof. reflexivity. Qed.

Lemma Clean_after_dotdot (rest : string) :
  Clean (".." ++ String.String Separator rest) = cleaned (cleanLoop false rest false ["."%char; "."%char] 2).
Proof. reflexivity. Qed.

(** The join of a directory name and a file name has no separator, or is
    the two names with one separator between them. *)
Lemma Join_two (seg file : string) :
  seg <> "" -> noSeparator seg = true -> noSeparator file = true ->
  noSeparator (Join [seg; file]) = true \/
  Join [seg; file] = seg ++ String.String Separator file.
Proof.
  intros Hne Hseg Hfile.
  assert (Hjoin : Join [seg; file] = Clean (seg ++ String.String Separator file)).
  { unfold Join. destruct (String.eqb_spec seg ""); [congruence | reflexivity]. }
  rewrite Hjoin.
  destruct (name_cases seg Hseg) as [-> | [-> | [-> | Hpseg]]]; [congruence | | |];
    destruct (name_cases file Hfile) as [-> | [-> | [-> | Hpfile]]];
    try (left; reflexivity); try (right; reflexivity).
  - (* ./file *)
    left. rewrite (Clean_after_dot file), cleanLoop_plain_end by exact Hpfile.
    cbn [negb andb orb length Nat.eqb].
    rewrite (Clean_result file []) by apply Hpfile. exact Hfile.
  - (* ../file *)
    right. rewrite (Clean_after_dotdot file), cleanLoop_plain_end by exact Hpfile.
    cbn [negb andb orb length Nat.eqb].
    rewrite (Clean_result file [Separator; "."%char; "."%char]) by apply Hpfile.
    reflexivity.
  - (* seg/ *)
    left. rewrite Clean_after_plain by exact Hpseg. cbn [cleanLoop].
    rewrite <- (app_nil_r (rev (chars seg))), (Clean_result seg []) by apply Hpseg.
    exact Hseg.
  - (* seg/. *)
    left. rewrite Clean_after_plain by exact Hpseg.
    change (cleanLoop false "." false (rev (chars seg)) 0) with (rev (chars seg)).
    rewrite <- (app_nil_r (rev (chars seg))), (Clean_result seg []) by apply Hpseg.
    exact Hseg.
  - (* seg/.. *)
    left. rewrite Clean_after_plain by exact Hpseg.
    change (cleanLoop false ".." false (rev (chars seg)) 0)
      with (if (0 <? length (rev (chars seg)))%nat
            then backtrack 0 (rev (chars seg))
            else "."%char :: "."%char ::
                 (if (0 <? length (rev (chars seg)))%nat
                  then Separator :: rev (chars seg) else rev (chars seg))).
    assert (Hlen : (0 <? length (rev (chars seg)))%nat = true).
    { apply Nat.ltb_lt. rewrite length_rev. destruct seg; [now destruct Hpseg | simpl; lia]. }
    rewrite Hlen, backtrack_names; [reflexivity |].
    apply Forall_rev, chars_names, Hseg.
  - (* seg/file *)
    right. rewrite <- Hjoin. now apply Join_plain.
Qed.

Lemma splitAll_names (s : string) :
  Forall (fun p => noSeparator p = true) (splitAll s).
Proof.
  induction s as [| c s IH]; simpl; [repeat constructor |].
  destruct (IsPathSeparator c) eqn:Hc; [constructor; [reflexivity | exact IH] |].
  destruct (splitAll s) as [| h t]; [repeat constructor; simpl; now rewrite Hc |].
  apply Forall_cons in IH as [Hh Ht]. constructor; [| exact Ht].
  simpl. now rewrite Hc, Hh.
Qed.

Lemma last_segment_name (dir seg : string) :
  last (segments dir) = Some seg -> seg <> "" /\ noSeparator seg = true.
Proof.
  intros Hlast. apply last_Some_elem_of in Hlast. unfold segments in Hlast.
  apply list_elem_of_filter in Hlast as [Hne Hin]. split; [exact Hne |].
  pose proof (splitAll_names dir) as Hall. rewrite Forall_forall in Hall. now apply Hall.
Qed.

Lemma countSeparators_name (s : string) :
  noSeparator s = true -> countSeparators s = 0%nat.
Proof.
  induction s as [| c s IH]; [reflexivity |]. simpl. intros Hs.
  apply andb_prop in Hs as [Hc Hs]. apply negb_true_iff in Hc.
  now rewrite Hc, IH.
Qed.

Lemma countSeparators_app (s t : string) :
  countSeparators (s ++ t) = (countSeparators s + countSeparators t)%nat.
Proof.
  induction s as [| c s IH]; [reflexivity |]. rewrite append_cons. simpl.
  rewrite IH. lia.
Qed.

(** The result of truncation: a name with no separator, or a directory
    name and a file name that join to it. *)
Lemma TruncateFile_shape (s : Src) :
  noSeparator (File (TruncateFile s)) = true \/
  exists seg file,
    seg <> "" /\ noSeparator seg = true /\ noSeparator file = true /\
    File (TruncateFile s) = seg ++ String.String Separator file /\
    Join [seg; file] = seg ++ String.String Separator file.
Proof.
  rewrite TruncateFile_File.
  destruct (Split_splitsAs (File s)) as (_ & Hfile & _).
  destruct (last (segments (Split (File s)).1)) as [seg |] eqn:Hlast; [| now left].
  destruct (last_segment_name _ _ Hlast) as [Hne Hseg].
  destruct (Join_two seg _ Hne Hseg Hfile) as [Hname | Hjoin]; [now left |].
  right. exists seg, (Split (File s)).2. repeat split; assumption.
Qed.

(** X23: the file name truncation leaves has at most one separator: it
    never shows more than one directory above the file. *)
Theorem TruncateFile_at_most_one_separator (s : Src) :
  (countSeparators (File (TruncateFile s)) <= 1)%nat.
Proof.
  destruct (TruncateFile_shape s) as [Hname | (seg & file & _ & Hseg & Hfile & -> & _)].
  - rewrite countSeparators_name by exact Hname. lia.
  - rewrite countSeparators_app. simpl.
    rewrite !countSeparators_name by assumption. lia.
Qed.

Lemma TruncateFile_Line (s : Src) : Line (TruncateFile s) = Line s.
Proof.
  unfold TruncateFile. destruct (Split (File s)) as [dir file].
  now destruct (0 <? length (FieldsFunc dir (fun r => Ascii.eqb r Separator)))%nat.
Qed.

(** X24: truncating twice is truncating once. *)
Theorem TruncateFile_idempotent (s : Src) :
  TruncateFile (TruncateFile s) = TruncateFile s.
Proof.
  assert (Hfile : File (TruncateFile (TruncateFile s)) = File (TruncateFile s)).
  { destruct (TruncateFile_shape s) as [Hname | (seg & file & Hne & Hseg & Hfile & Heq & Hjoin)].
    - rewrite TruncateFile_File, (Split_name _ Hname). reflexivity.
    - assert (Hagain : forall t : Src,
                File t = seg ++ String.String Separator file ->
                File (TruncateFile t) = Join [seg; file]).
      { intros [r ln] Hr. cbn [File] in Hr. subst r.
        now apply TruncateFile_prefixed. }
      rewrite (Hagain _ Heq), Hjoin. symmetry. exact Heq. }
  pose proof (TruncateFile_Line (TruncateFile s)) as Hline.
  destruct (TruncateFile (TruncateFile s)) as [f1 l1], (TruncateFile s) as [f2 l2].
  simpl in *. now subst.
Qed.

End MorePathProperties.

Lemma TruncateFile_prefix_independent_witness :
  "handlers" <> "" /\ noSeparator "handlers" = true /\ noSeparator "login.go" = true /\
  File (TruncateFile {| File := "/build/src/app/handlers/login.go"; Line := 12 |})
    = File (TruncateFile {| File := "handlers/login.go"; Line := 12 |}).
Proof.
  assert (Hne : "handlers" <> "") by discriminate.
  assert (Hseg : noSeparator "handlers" = true) by reflexivity.
  assert (Hfile : noSeparator "login.go" = true) by reflexivity.
  split; [exact Hne |]. split; [exact Hseg |]. split; [exact Hfile |].
  destruct (TruncateFile_prefix_independent "/build/src/app" "handlers" "login.go" 12
              Hne Hseg Hfile) as [Hlong Hshort].
  exact (eq_trans Hlong (eq_sym Hshort)).
Defined.

(** ** The further properties at sample inputs *)

Lemma call_changes_only_fields_witness :
  loggers remoteWorld !! 0%nat = Some remoteLogger /\
  exists w',
    call (H := plainLib) SError 0%nat "boom" [] sampleRuntime remoteWorld
      = Returned tt w' /\
    loggers w' !! 0%nat = Some (drained remoteLogger) /\
    loggers w' !! 1%nat = loggers remoteWorld !! 1%nat.
Proof.
  assert (Hl : loggers remoteWorld !! 0%nat = Some remoteLogger) by reflexivity.
  split; [exact Hl |].
  destruct (output_returns (H := plainLib) remoteWorld 0%nat remoteLogger 2
              (severityLevel SError) (Sprintf (GoLib := plainLib) "boom" [])
              sampleRuntime Hl) as (w' & Hrun & _).
  assert (Hcall : call (H := plainLib) SError 0%nat "boom" [] sampleRuntime remoteWorld
                  = Returned tt w') by exact Hrun.
  assert (Hne : 1%nat <> 0%nat) by discriminate.
  destruct (call_changes_only_fields (H := plainLib) remoteWorld w' 0%nat remoteLogger
              SError "boom" [] sampleRuntime Hl Hcall) as [Hself Hothers].
  exists w'. split; [exact Hcall |]. split; [exact Hself |]. exact (Hothers 1%nat Hne).
Defined.

Lemma emitted_call_prints_one_line_witness :
  loggers remoteWorld !! 0%nat = Some remoteLogger /\
  level remoteLogger <= severityLevel SError /\
  stdoutErr remoteWorld = None /\
  exists w',
    call (H := plainLib) SError 0%nat "boom" [] sampleRuntime remoteWorld
      = Returned tt w' /\
    length (stdout w') = 1%nat /\
    length (posted w') = 1%nat.
Proof.
  assert (Hl : loggers remoteWorld !! 0%nat = Some remoteLogger) by reflexivity.
  assert (Hle : level remoteLogger <= severityLevel SError)
    by (apply Z.leb_le; reflexivity).
  assert (He : stdoutErr remoteWorld = None) by reflexivity.
  split; [exact Hl |]. split; [exact Hle |]. split; [exact He |].
  destruct (emitted_call_prints_one_line (H := plainLib) remoteWorld 0%nat remoteLogger
              SError "boom" [] sampleRuntime Hl Hle He) as (w' & Hcall & Hout & Hpost).
  exists w'. split; [exact Hcall |]. split.
  - rewrite Hout. reflexivity.
  - rewrite Hpost. reflexivity.
Defined.

Lemma fields_consumed_once_witness :
  loggers sampleWorld !! 0%nat = Some sampleLogger /\
  level sampleLogger <= severityLevel SCritical /\
  exists w1 j w2,
    call (H := plainLib) SDebug 0%nat "first" [] sampleRuntime sampleWorld
      = Returned tt w1 /\
    memberKeys j = ["time"; "app"; "level"; "msg"; "Src"] /\
    call (H := plainLib) SCritical 0%nat "second" [] sampleRuntime w1 = Returned tt w2.
Proof.
  assert (Hl : loggers sampleWorld !! 0%nat = Some sampleLogger) by reflexivity.
  assert (Hle : level sampleLogger <= severityLevel SCritical)
    by (apply Z.leb_le; reflexivity).
  split; [exact Hl |]. split; [exact Hle |].
  destruct (output_returns (H := plainLib) sampleWorld 0%nat sampleLogger 2
              (severityLevel SDebug) (Sprintf (GoLib := plainLib) "first" [])
              sampleRuntime Hl) as (w1 & Hrun & _).
  assert (Hcall : call (H := plainLib) SDebug 0%nat "first" [] sampleRuntime sampleWorld
                  = Returned tt w1) by exact Hrun.
  destruct (fields_consumed_once (H := plainLib) sampleWorld w1 0%nat sampleLogger
              SDebug "first" [] sampleRuntime SCritical "second" [] sampleRuntime
              Hl Hcall Hle) as (j & w2 & _ & Hkeys & Hcall2 & _).
  exists w1, j, w2. split; [exact Hcall |]. split; [exact Hkeys |]. exact Hcall2.
Defined.

Lemma unknown_caller_record_witness :
  let r := recordOf sampleLogger 2 (severityLevel SError) "boom" blindRuntime in
  let j := JObject [("time", JString "2024-05-06T07:08:09Z"); ("app", JString "svc");
                    ("level", JString "error"); ("msg", JString "boom");
                    ("data", JObject [("k", JString "v1")]);
                    ("Src", JObject [("file", JString "???"); ("line", JNumber 0)])] in
  loggers sampleWorld !! 0%nat = Some sampleLogger /\
  level sampleLogger <= severityLevel SError /\
  Caller blindRuntime 2 = None /\
  encodeWriteLog r = Ok j /\
  member "Src" j = Some (JObject [("file", JString "???"); ("line", JNumber 0)]) /\
  exists res w',
    Write (out sampleLogger) (render (H := plainLib) j)
      (withFields sampleWorld 0%nat sampleLogger ∅) = Returned res w' /\
    call (H := plainLib) SError 0%nat "boom" [] blindRuntime sampleWorld = Returned tt w'.
Proof.
  intros r j.
  assert (Hl : loggers sampleWorld !! 0%nat = Some sampleLogger) by reflexivity.
  assert (Hle : level sampleLogger <= severityLevel SError)
    by (apply Z.leb_le; reflexivity).
  assert (Hcaller : Caller blindRuntime 2 = None) by reflexivity.
  assert (Hj : encodeWriteLog r = Ok j) by reflexivity.
  split; [exact Hl |]. split; [exact Hle |]. split; [exact Hcaller |].
  split; [exact Hj |].
  exact (unknown_caller_record (H := plainLib) sampleWorld 0%nat sampleLogger SError
           "boom" [] blindRuntime j Hl Hle Hcaller Hj).
Defined.

Lemma Fatal_above_emergency_is_silent_witness :
  loggers mutedWorld !! 0%nat = Some mutedLogger /\
  Levels.EmergencyLevel < level mutedLogger /\
  Fatal (H := plainLib) 0%nat "bye" [] sampleRuntime mutedWorld
    = Exited 1 (withFields mutedWorld 0%nat mutedLogger ∅) /\
  sinkOutput (withFields mutedWorld 0%nat mutedLogger ∅) = sinkOutput mutedWorld.
Proof.
  assert (Hl : loggers mutedWorld !! 0%nat = Some mutedLogger) by reflexivity.
  assert (Hlt : Levels.EmergencyLevel < level mutedLogger) by reflexivity.
  split; [exact Hl |]. split; [exact Hlt |].
  exact (Fatal_above_emergency_is_silent (H := plainLib) mutedWorld 0%nat mutedLogger
           "bye" [] sampleRuntime Hl Hlt).
Defined.


Lemma Marshal_outcome_witness :
  let r := recordOf funcLogger 2 (severityLevel SError) "boom" sampleRuntime in
  (exists k v, WriteLog.Data r !! k = Some v /\ encodable v = false) /\
  Marshal (H := plainLib) r = Failed unsupportedFunc /\
  payloadOf (H := plainLib) r =
    "Logger unable to marshal log output to JSON: json: unsupported type: func()".
Proof.
  intros r.
  assert (Hbad : exists k v, WriteLog.Data r !! k = Some v /\ encodable v = false).
  { exists "handler", VFunc. split; reflexivity. }
  split; [exact Hbad |].
  exact (proj1 (Marshal_outcome (H := plainLib) r) Hbad).
Defined.
